(** * pipe_cleaner.traversal: the lookahead iteration protocol

    A shallow embedding of [src/pipe_cleaner/traversal.py]: the class
    [LookaheadIterable] with its two generator functions ([_iterate] and the
    closure [_peek]), the methods [peek] and [rewind], the context manager
    [stop_iteration_handler] and the function [with_lookahead].

    Python objects are mutable and shared, so the embedding threads the
    object's state explicitly: every method is a function from the state of
    the wrapper to an outcome and the next state.  The generator objects the
    wrapper hands out are kept in a store inside that state, addressed by
    their index, because [rewind] closes the generator of the running peek
    and a generator that has raised or returned stays finished. *)

From stdpp Require Import base option list strings.
From Stdlib Require Import ZArith Lia.

(** ** Exceptions and outcomes *)

(** The exceptions that occur in the module.  [RuntimeError] is what the
    interpreter raises when a [StopIteration] escapes a generator body. *)
Inductive exn :=
  | StopIteration
  | LookaheadError (msg : string)
  | RuntimeError (msg : string).

(** The outcome of a statement or call: a value or a raised exception. *)
Inductive result (A : Type) :=
  | Return (a : A)
  | Raise (e : exn).
Arguments Return {A} a.
Arguments Raise {A} e.

(** The two generator functions of the class. *)
Inductive gen_kind := IterateGen | PeekGen.

(** A generator object is either resumable or finished.  A generator that
    was created and not started yet and one that is suspended at its [yield]
    behave alike in both bodies: the next resumption starts an iteration of
    the [while True] loop. *)
Inductive gen_state := Suspended | Finished.

(** Python's slice [l[i:]] for an integer [i]: a negative index counts from
    the end, and indices out of range are clamped. *)
Definition slice_from {A} (i : Z) (l : list A) : list A :=
  let len := Z.of_nat (length l) in
  let start := if (i <? 0)%Z then Z.max (len + i) 0 else Z.min i len in
  drop (Z.to_nat start) l.

Section Traversal.

Context {T : Type}.

(** What [next(g)] gives the caller: a value, the end of the sequence (the
    generator returned), or an exception that left the generator body. *)
Inductive signal :=
  | Yielded (v : T)
  | Stopped
  | Raised (e : exn).

(** The attributes of [LookaheadIterable].  [iterable] is the iterator made
    by [iter(iterable)] in [__init__], given by the items it has not produced
    yet; [_peeking] is [None] or the generator of the running peek; [gens]
    is the store of the generator objects made by [__iter__] and [peek].
    The attribute [iterator] is set to [None] in [__init__] and never used
    again; it is left out. *)
Record LookaheadIterable := MkLookahead {
  iterable : list T;
  _peeking : option nat;
  peeked : list T;
  unpeeked : list T;
  gens : list (gen_kind * gen_state)
}.

Definition set_iterable (l : list T) (w : LookaheadIterable) :=
  MkLookahead l (_peeking w) (peeked w) (unpeeked w) (gens w).
Definition set_peeking (p : option nat) (w : LookaheadIterable) :=
  MkLookahead (iterable w) p (peeked w) (unpeeked w) (gens w).
Definition set_peeked (l : list T) (w : LookaheadIterable) :=
  MkLookahead (iterable w) (_peeking w) l (unpeeked w) (gens w).
Definition set_unpeeked (l : list T) (w : LookaheadIterable) :=
  MkLookahead (iterable w) (_peeking w) (peeked w) l (gens w).
Definition set_gens (gs : list (gen_kind * gen_state)) (w : LookaheadIterable) :=
  MkLookahead (iterable w) (_peeking w) (peeked w) (unpeeked w) gs.

(** [LookaheadIterable.__init__] *)
Definition __init__ (items : list T) : LookaheadIterable :=
  {| iterable := items; _peeking := None; peeked := []; unpeeked := [];
     gens := [] |}.

(** ** A state and exception monad over the wrapper *)

Definition M (A : Type) : Type :=
  LookaheadIterable -> result A * LookaheadIterable.

Definition ret {A} (a : A) : M A := fun w => (Return a, w).
Definition raise {A} (e : exn) : M A := fun w => (Raise e, w).
Definition bind {A B} (m : M A) (k : A -> M B) : M B :=
  fun w => match m w with
           | (Return a, w') => k a w'
           | (Raise e, w') => (Raise e, w')
           end.
Definition get : M LookaheadIterable := fun w => (Return w, w).
Definition modify (f : LookaheadIterable -> LookaheadIterable) : M unit :=
  fun w => (Return tt, f w).

#[local] Instance M_ret : MRet M := @ret.
#[local] Instance M_bind : MBind M := fun A B k m => bind m k.

(** Truth value of [self._peeking]: [None] is false, a generator object is
    true. *)
Definition truthy (p : option nat) : bool :=
  match p with Some _ => true | None => false end.

(** [next(self.iterable)] *)
Definition next_iterable : M T :=
  fun w => match iterable w with
           | x :: rest => (Return x, set_iterable rest w)
           | [] => (Raise StopIteration, w)
           end.

(** [self.unpeeked.pop(0) if self.unpeeked else next(self.iterable)] *)
Definition pop_or_next : M T :=
  fun w => match unpeeked w with
           | x :: rest => (Return x, set_unpeeked rest w)
           | [] => next_iterable w
           end.

(** One turn of the loop of [_iterate], up to its [yield]. *)
Definition _iterate_body : M T :=
  w ← get;
  if truthy (_peeking w)
  then raise (LookaheadError "Cannot iterate after a peek(). Call rewind() first"%string)
  else pop_or_next.

(** One turn of the loop of [_peek], up to its [yield]. *)
Definition _peek_body : M T :=
  item ← pop_or_next;
  modify (fun w => set_peeked (peeked w ++ [item]) w);;
  ret item.

Definition body (k : gen_kind) : M T :=
  match k with IterateGen => _iterate_body | PeekGen => _peek_body end.

(** [stop_iteration_handler]: a [StopIteration] raised inside the managed
    block is caught and the block is left normally ([None]); a block that
    reaches its [yield] gives [Some] value; other exceptions pass. *)
Definition stop_iteration_handler {A} (block : M A) : M (option A) :=
  fun w => match block w with
           | (Return a, w') => (Return (Some a), w')
           | (Raise StopIteration, w') => (Return None, w')
           | (Raise e, w') => (Raise e, w')
           end.

(** Marks the generator [g] as finished. *)
Definition finish (g : nat) (w : LookaheadIterable) : LookaheadIterable :=
  match gens w !! g with
  | Some (k, _) => set_gens (<[g := (k, Finished)]> (gens w)) w
  | None => w
  end.

(** [next(g)] on a generator object of the wrapper.  The whole loop of both
    generator functions is inside [with stop_iteration_handler()], so leaving
    the block normally ends the generator function.  An exception leaving the
    body finishes the generator, and a [StopIteration] leaving it is turned
    into a [RuntimeError] by the interpreter.  A finished generator only
    signals the end.  An index that names no generator stands for no object;
    it is treated like a finished one. *)
Definition next_ (g : nat) (w : LookaheadIterable) : signal * LookaheadIterable :=
  match gens w !! g with
  | Some (k, Suspended) =>
      match stop_iteration_handler (body k) w with
      | (Return (Some v), w') => (Yielded v, w')
      | (Return None, w') => (Stopped, finish g w')
      | (Raise StopIteration, w') =>
          (Raised (RuntimeError "generator raised StopIteration"%string), finish g w')
      | (Raise e, w') => (Raised e, finish g w')
      end
  | _ => (Stopped, w)
  end.

(** [g.close()] *)
Definition close (g : nat) : M unit := modify (finish g).

(** Allocation of a generator object. *)
Definition new_gen (k : gen_kind) : M nat :=
  fun w => (Return (length (gens w)), set_gens (gens w ++ [(k, Suspended)]) w).

(** [LookaheadIterable.__iter__]: calling the generator function [_iterate]
    runs none of its body. *)
Definition __iter__ : M nat := new_gen IterateGen.

(** [LookaheadIterable.peek] *)
Definition peek : M nat :=
  w ← get;
  if truthy (_peeking w)
  then raise (LookaheadError "peek() called multiple times without rewind()"%string)
  else
    g ← new_gen PeekGen;
    modify (set_peeking (Some g));;
    ret g.

(** [LookaheadIterable.rewind] *)
Definition rewind (n : Z) : M unit :=
  w ← get;
  match _peeking w with
  | None => raise (LookaheadError "rewind() called without peek()"%string)
  | Some g =>
      (if (n <? 0)%Z then modify (fun w => set_unpeeked (peeked w) w) else ret tt);;
      (if (0 <? n)%Z then modify (fun w => set_unpeeked (slice_from (- n) (peeked w)) w)
       else ret tt);;
      modify (set_peeked []);;
      close g;;
      modify (set_peeking None)
  end.

(** ** Consumers *)

(** Pulls at most [k] values from the generator [g], as [islice(g, k)]
    collected into a list does: it stops early when the generator ends, and
    an exception from the generator passes through. *)
Fixpoint pull (k : nat) (g : nat) : M (list T) :=
  match k with
  | 0 => ret []
  | S k' =>
      fun w => match next_ g w with
               | (Yielded v, w') => (vs ← pull k' g; ret (v :: vs)) w'
               | (Stopped, w') => (Return [], w')
               | (Raised e, w') => (Raise e, w')
               end
  end.

(** [list(w)]: a new iteration view, pulled until it ends.  Every pull that
    yields takes one value out of [unpeeked] or [iterable], so their joint
    length plus one bounds the number of pulls. *)
Definition to_list : M (list T) :=
  g ← __iter__;
  w ← get;
  pull (S (length (unpeeked w) + length (iterable w))) g.

(** A peek session followed by plain iteration: open a peek, pull [k] values
    through its view, [rewind(n)], then iterate the wrapper to the end.
    Gives the values seen by the peek and the values iterated. *)
Definition peek_rewind_list (k : nat) (n : Z) : M (list T * list T) :=
  p ← peek;
  seen ← pull k p;
  rewind n;;
  rest ← to_list;
  ret (seen, rest).

(** [rewind(n)] followed by a plain iteration to the end. *)
Definition rewind_list (n : Z) : M (list T) :=
  rewind n;;
  to_list.

(** ** Sequences of calls *)

(** A call made on the wrapper or on one of its generators. *)
Inductive call :=
  | CallIter
  | CallPeek
  | CallRewind (n : Z)
  | CallNext (g : nat).

(** What the caller observes of a call. *)
Inductive observation :=
  | ObsGen (g : nat)
  | ObsNone
  | ObsError (e : exn)
  | ObsNext (g : nat) (k : option gen_kind) (s : signal).

Definition observe_gen (r : result nat) : observation :=
  match r with Return g => ObsGen g | Raise e => ObsError e end.
Definition observe_unit (r : result unit) : observation :=
  match r with Return _ => ObsNone | Raise e => ObsError e end.

Definition step (c : call) (w : LookaheadIterable) : observation * LookaheadIterable :=
  match c with
  | CallIter => let '(r, w') := __iter__ w in (observe_gen r, w')
  | CallPeek => let '(r, w') := peek w in (observe_gen r, w')
  | CallRewind n => let '(r, w') := rewind n w in (observe_unit r, w')
  | CallNext g => let '(s, w') := next_ g w in (ObsNext g (fst <$> gens w !! g) s, w')
  end.

Fixpoint run (cs : list call) (w : LookaheadIterable)
  : list observation * LookaheadIterable :=
  match cs with
  | [] => ([], w)
  | c :: cs' =>
      let '(o, w') := step c w in
      let '(os, w'') := run cs' w' in
      (o :: os, w'')
  end.

(** The values delivered by the normal iteration views, in order. *)
Definition delivered (os : list observation) : list T :=
  flat_map (fun o => match o with
                     | ObsNext _ (Some IterateGen) (Yielded v) => [v]
                     | _ => []
                     end) os.

(** A state the wrapper can be in: reached from a fresh wrapper by calls. *)
Definition reachable (w : LookaheadIterable) : Prop :=
  exists items cs, (run cs (__init__ items)).2 = w.

(** ** Wrapping *)

(** A value handed to [with_lookahead]: a reference to a [LookaheadIterable]
    object of the heap, or any other iterable, given by the items its
    iterator produces. *)
Inductive pyobj :=
  | LookaheadRef (a : nat)
  | OtherIterable (items : list T).

(** The [LookaheadIterable] objects allocated so far, by address. *)
Definition heap := list LookaheadIterable.

(** [with_lookahead]: [isinstance(iterable, LookaheadIterable)] decides
    between handing the argument back and constructing a new object. *)
Definition with_lookahead (x : pyobj) (h : heap) : pyobj * heap :=
  match x with
  | LookaheadRef a => (LookaheadRef a, h)
  | OtherIterable items => (LookaheadRef (length h), h ++ [__init__ items])
  end.

End Traversal.

Arguments LookaheadIterable T : clear implicits.
Arguments signal T : clear implicits.
Arguments M T A : clear implicits.
Arguments pyobj T : clear implicits.
Arguments heap T : clear implicits.
Arguments observation T : clear implicits.

(** * Notions used to state the properties *)

Section Notions.

Context {T : Type}.

Implicit Types (w : LookaheadIterable T) (g k : nat) (n : Z).

(** The state after [k] values have left the front of [unpeeked] and then
    of [iterable]. *)
Definition advance (k : nat) w : LookaheadIterable T :=
  set_unpeeked (drop k (unpeeked w))
    (set_iterable (drop (k - length (unpeeked w)) (iterable w)) w).

(** What [rewind(n)] puts into [unpeeked]. *)
Definition restored n w : list T :=
  if (n <? 0)%Z then peeked w
  else if (0 <? n)%Z then slice_from (- n) (peeked w)
  else unpeeked w.

(** The wrapper after a plain iteration to the end: nothing buffered, the
    source used up, the one view finished. *)
Definition drained : LookaheadIterable T :=
  {| iterable := []; _peeking := None; peeked := []; unpeeked := [];
     gens := [(IterateGen, Finished)] |}.

(** A call, or a pull, that raised [LookaheadError]. *)
Definition raises_lookahead {A} (r : result A) : Prop :=
  exists msg, r = Raise (LookaheadError msg).
Definition signals_lookahead (s : signal T) : Prop :=
  exists msg, s = Raised (LookaheadError msg).

(** An observation in which no exception other than [LookaheadError]
    reaches the caller. *)
Definition silent (o : observation T) : Prop :=
  match o with
  | ObsNext _ _ (Raised e) | ObsError e => exists msg, e = LookaheadError msg
  | _ => True
  end.

(** An observation that is not a delivered value. *)
Definition no_value (o : observation T) : Prop :=
  match o with
  | ObsNext _ _ (Yielded _) => False
  | _ => True
  end.

(** The values the wrapper still holds, in the order of the source. *)
Definition pending w : list T := peeked w ++ unpeeked w ++ iterable w.

(** What holds of every state reached by calls: outside a peek nothing is
    recorded in [peeked], and the only peek view that can still run is the
    one of the running peek. *)
Definition consistent w : Prop :=
  (_peeking w = None -> peeked w = [])
  /\ (forall g, gens w !! g = Some (PeekGen, Suspended) -> _peeking w = Some g).

End Notions.

(** * Concrete sessions *)

(** Peek at all of [[1; 2; 3]] and rewind everything; peek again, pull one
    value only and rewind everything again; then iterate. *)
Definition short_second_peek : list call :=
  [CallPeek; CallNext 0; CallNext 0; CallNext 0; CallRewind (-1);
   CallPeek; CallNext 1; CallRewind (-1);
   CallIter; CallNext 2; CallNext 2].

(** The wrapper of that session at its second [rewind]. *)
Definition at_second_rewind : LookaheadIterable nat :=
  (run (take 7 short_second_peek) (__init__ [1; 2; 3])).2.

(** A normal view made before a peek and pulled during it. *)
Definition pull_during_peek : list call :=
  [CallIter; CallPeek; CallNext 0].

(** The wrapper after that pull: the peek is still active. *)
Definition after_pull_during_peek : LookaheadIterable nat :=
  (run pull_during_peek (__init__ [1; 2])).2.

(** A peek in which both values of [[1; 2]] were pulled, source not yet
    asked for more. *)
Definition peeked_two : LookaheadIterable nat :=
  (run [CallPeek; CallNext 0; CallNext 0] (__init__ [1; 2])).2.

(** A normal view and a peek, both live, on [[1; 2]]. *)
Definition view_and_peek : LookaheadIterable nat :=
  (run [CallIter; CallPeek] (__init__ [1; 2])).2.

(** A wrapper of [[1; 2; 3]] outside a peek with [1] and [2] buffered: two
    values were peeked and all were rewound. *)
Definition buffered_two : LookaheadIterable nat :=
  (run [CallPeek; CallNext 0; CallNext 0; CallRewind (-1)]
     (__init__ [1; 2; 3])).2.

(** A normal view made before a peek on [[1; 2]], and the peek pulled
    three times: the third pull meets the end of the source. *)
Definition exhausted_in_peek : LookaheadIterable nat :=
  (run [CallIter; CallPeek; CallNext 1; CallNext 1; CallNext 1]
     (__init__ [1; 2])).2.

(** [sys.maxsize] of a 64-bit interpreter. *)
Definition maxsize64 : Z := 2 ^ 63 - 1.

(** The test of the [take_while] sessions below. *)
Definition below_four (v : nat) : bool := v <? 4.

(** * Further sessions on the wrapper *)

Section Sessions.

Context {T : Type}.

#[local] Instance Sessions_ret : MRet (M T) := @ret T.
#[local] Instance Sessions_bind : MBind (M T) := fun A B k m => bind m k.

(** [p = w.peek()] and [k] pulls on [p]. *)
Definition peek_pull (k : nat) : M T (list T) :=
  p ← peek;
  pull k p.

(** [it = iter(w)] and [k] pulls on [it]. *)
Definition iter_pull (k : nat) : M T (list T) :=
  g ← __iter__;
  pull k g.

(** [j] pulls on the view [a], then [k] pulls on the view [b]. *)
Definition pull_two (j a k b : nat) : M T (list T * list T) :=
  xs ← pull j a;
  ys ← pull k b;
  ret (xs, ys).

(** [list(takewhile(pred, g))]: values are pulled from [g] and kept while
    they satisfy [pred]; the first value that does not is pulled too and
    thrown away, and nothing is pulled after it. *)
Fixpoint take_while_pull (fuel : nat) (pred : T -> bool) (g : nat)
  : M T (list T) :=
  match fuel with
  | 0 => ret []
  | S fuel' =>
      fun w => match next_ g w with
               | (Yielded v, w') =>
                   if pred v
                   then (vs ← take_while_pull fuel' pred g; ret (v :: vs)) w'
                   else (Return [], w')
               | (Stopped, w') => (Return [], w')
               | (Raised e, w') => (Raise e, w')
               end
  end.

(** The use of the docstring of [with_lookahead]:
    [seen = w.peek() | take_while(pred) | as_list()], then [w.rewind(n)],
    then the wrapper is iterated to the end.  A pull that yields takes a
    value out of [unpeeked] or [iterable], so their joint length plus one
    bounds the pulls of [take_while]. *)
Definition peek_while_rewind_list (pred : T -> bool) (n : Z)
  : M T (list T * list T) :=
  p ← peek;
  w ← get;
  seen ← take_while_pull (S (length (unpeeked w) + length (iterable w))) pred p;
  rewind n;;
  rest ← to_list;
  ret (seen, rest).

End Sessions.

(** * pipe_cleaner.debug: [debug_eager] *)

Section Debug.

Context {T : Type}.

(** What [print] has written: the label or an item, one line each. *)
Inductive printed :=
  | PrintLabel (label : string)
  | PrintItem (item : T).

(** The exception of [itertools.islice] for a negative stop. *)
Inductive debug_exn :=
  | ValueError (msg : string).

(** Where the generator [debug_eager] stands: not started; inside
    [yield from items] with the items still to be yielded; inside
    [yield from iterable]; finished. *)
Inductive debug_phase :=
  | DebugCreated
  | DebugItems (items : list T)
  | DebugIterable
  | DebugDone.

(** The generator with what its body reads and writes: its arguments
    [label] and [max_count], the iterator [iter(iterable)] given by the
    items it has not produced yet, and the standard output. *)
Record debug_state := MkDebug {
  debug_label : option string;
  debug_max_count : Z;
  debug_iterable : list T;
  debug_stdout : list printed;
  debug_phase_of : debug_phase
}.

Definition set_debug (iterable : list T) (out : list printed)
  (phase : debug_phase) (s : debug_state) : debug_state :=
  MkDebug (debug_label s) (debug_max_count s) iterable out phase.

(** What [next(g)] gives the caller of the generator. *)
Inductive debug_signal :=
  | DebugYielded (v : T)
  | DebugStopped
  | DebugRaised (e : debug_exn).

(** The generator made by the call [debug_eager(iterable, label, max_count)]
    (the defaults are [None] and [100]): the call itself runs none of the
    body. *)
Definition debug_eager (iterable : list T) (label : option string)
  (max_count : Z) : debug_state :=
  {| debug_label := label; debug_max_count := max_count;
     debug_iterable := iterable; debug_stdout := [];
     debug_phase_of := DebugCreated |}.

(** [yield from iterable]: the next value of the iterator, or the end of the
    generator when the iterator has none. *)
Definition yield_from_iterable (s : debug_state) : debug_signal * debug_state :=
  match debug_iterable s with
  | x :: rest => (DebugYielded x, set_debug rest (debug_stdout s) DebugIterable s)
  | [] => (DebugStopped, set_debug [] (debug_stdout s) DebugDone s)
  end.

(** [yield from items], followed by [yield from iterable] when the list is
    used up. *)
Definition yield_from_items (items : list T) (s : debug_state)
  : debug_signal * debug_state :=
  match items with
  | x :: rest =>
      (DebugYielded x,
       set_debug (debug_iterable s) (debug_stdout s) (DebugItems rest) s)
  | [] => yield_from_iterable s
  end.

(** What the body prints: the label, if there is one, then the items. *)
Definition debug_output (label : option string) (items : list T)
  : list printed :=
  match label with Some l => [PrintLabel l] | None => [] end
  ++ map PrintItem items.

(** [sys.maxsize], the largest [Py_ssize_t] of the interpreter that runs the
    code; it is no part of the repository. *)
Context (maxsize : Z).

(** The check [itertools.islice(iterable, None, stop)] makes on its stop,
    with the message of the [ValueError] it raises: a stop that does not
    fit a [Py_ssize_t], or that is [-1], is refused as a stop argument, any
    other negative stop as an index. *)
Definition islice_stop_error (stop : Z) : option string :=
  if (maxsize <? stop)%Z || (stop <? - maxsize - 1)%Z || (stop =? -1)%Z
  then Some "Stop argument for islice() must be None or an integer: 0 <= x <= sys.maxsize."%string
  else if (stop <? -1)%Z
  then Some "Indices for islice() must be None or an integer: 0 <= x <= sys.maxsize."%string
  else None.

(** [next(g)].  The first resumption runs the body up to the first [yield]:
    [list(iterable | islice(None, max_count))] takes the first [max_count]
    items off the iterator, and [islice] refuses a [max_count] that is
    negative or above [sys.maxsize] with [ValueError] before anything is
    fetched or printed; then the label and the fetched items are printed. *)
Definition debug_next (s : debug_state) : debug_signal * debug_state :=
  match debug_phase_of s with
  | DebugCreated =>
      match islice_stop_error (debug_max_count s) with
      | Some msg =>
          (DebugRaised (ValueError msg),
           set_debug (debug_iterable s) (debug_stdout s) DebugDone s)
      | None =>
          let items := take (Z.to_nat (debug_max_count s)) (debug_iterable s) in
          yield_from_items items
            (set_debug (drop (Z.to_nat (debug_max_count s)) (debug_iterable s))
               (debug_stdout s ++ debug_output (debug_label s) items)
               (DebugItems items) s)
      end
  | DebugItems items => yield_from_items items s
  | DebugIterable => yield_from_iterable s
  | DebugDone => (DebugStopped, s)
  end.

(** The outcome of a consumer of the generator: the values it collected,
    or the exception that ended it. *)
Inductive debug_result :=
  | DebugValues (vs : list T)
  | DebugFailed (e : debug_exn).

(** At most [k] pulls on the generator, collected; the pulls stop at the
    end of the generator or at an exception. *)
Fixpoint debug_pull (k : nat) (s : debug_state) : debug_result * debug_state :=
  match k with
  | 0 => (DebugValues [], s)
  | S k' =>
      match debug_next s with
      | (DebugYielded v, s') =>
          match debug_pull k' s' with
          | (DebugValues vs, s'') => (DebugValues (v :: vs), s'')
          | (DebugFailed e, s'') => (DebugFailed e, s'')
          end
      | (DebugStopped, s') => (DebugValues [], s')
      | (DebugRaised e, s') => (DebugFailed e, s')
      end
  end.

End Debug.

Arguments printed T : clear implicits.
Arguments debug_phase T : clear implicits.
Arguments debug_state T : clear implicits.
Arguments debug_signal T : clear implicits.
Arguments debug_result T : clear implicits.

(** * Properties *)

Section Properties.

Context {T : Type}.

Implicit Types (w : LookaheadIterable T) (g k : nat) (n : Z) (items : list T).

(** ** Pulling from a generator *)

#[local] Ltac unfold_state :=
  unfold advance, finish, set_iterable, set_peeking, set_peeked, set_unpeeked,
    set_gens in *; simpl in *.

Lemma pop_or_next_cons w x rest :
  unpeeked w ++ iterable w = x :: rest ->
  pop_or_next w = (Return x, advance 1 w).
Proof.
  destruct w as [it p pk up gs]; unfold pop_or_next, next_iterable; unfold_state.
  destruct up as [|y up]; simpl.
  - intros ->. reflexivity.
  - intros [= -> <-]. rewrite drop_0. reflexivity.
Qed.

Lemma pop_or_next_nil w :
  unpeeked w = [] -> iterable w = [] ->
  pop_or_next w = (Raise StopIteration, w).
Proof.
  unfold pop_or_next, next_iterable. intros -> ->. reflexivity.
Qed.

Lemma advance_advance j k w : advance j (advance k w) = advance (k + j) w.
Proof.
  destruct w as [it p pk up gs]; unfold_state.
  rewrite !drop_drop, length_drop. do 2 f_equal. lia.
Qed.

Lemma advance_buffer k w :
  unpeeked (advance k w) ++ iterable (advance k w)
  = drop k (unpeeked w ++ iterable w).
Proof.
  destruct w as [it p pk up gs]; unfold_state. by rewrite drop_app.
Qed.

(** A pull on a live normal view, outside a peek, with a value left. *)
Lemma next_iterate_cons g w x rest :
  gens w !! g = Some (IterateGen, Suspended) ->
  _peeking w = None ->
  unpeeked w ++ iterable w = x :: rest ->
  next_ g w = (Yielded x, advance 1 w).
Proof.
  intros Hg Hp Hb. unfold next_. rewrite Hg.
  unfold stop_iteration_handler, body, _iterate_body, mbind, M_bind, bind, get.
  rewrite Hp. simpl. by rewrite (pop_or_next_cons _ _ _ Hb).
Qed.

(** A pull on a live normal view, outside a peek, with nothing left. *)
Lemma next_iterate_nil g w :
  gens w !! g = Some (IterateGen, Suspended) ->
  _peeking w = None ->
  unpeeked w = [] -> iterable w = [] ->
  next_ g w = (Stopped, finish g w).
Proof.
  intros Hg Hp Hu Hi. unfold next_. rewrite Hg.
  unfold stop_iteration_handler, body, _iterate_body, mbind, M_bind, bind, get.
  rewrite Hp. simpl. by rewrite (pop_or_next_nil _ Hu Hi).
Qed.

(** A pull on a live peek view with a value left. *)
Lemma next_peek_cons g w x rest :
  gens w !! g = Some (PeekGen, Suspended) ->
  unpeeked w ++ iterable w = x :: rest ->
  next_ g w = (Yielded x, set_peeked (peeked w ++ [x]) (advance 1 w)).
Proof.
  intros Hg Hb. unfold next_. rewrite Hg.
  unfold stop_iteration_handler, body, _peek_body, mbind, M_bind, bind, modify.
  by rewrite (pop_or_next_cons _ _ _ Hb).
Qed.

(** A pull on a live peek view with nothing left. *)
Lemma next_peek_nil g w :
  gens w !! g = Some (PeekGen, Suspended) ->
  unpeeked w = [] -> iterable w = [] ->
  next_ g w = (Stopped, finish g w).
Proof.
  intros Hg Hu Hi. unfold next_. rewrite Hg.
  unfold stop_iteration_handler, body, _peek_body, mbind, M_bind, bind, modify.
  by rewrite (pop_or_next_nil _ Hu Hi).
Qed.

(** A pull on a finished generator. *)
Lemma next_finished g (kd : gen_kind) w :
  gens w !! g = Some (kd, Finished) -> next_ g w = (Stopped, w).
Proof. intros Hg. unfold next_. by rewrite Hg. Qed.

Lemma pull_S k g w :
  pull (S k) g w =
  match next_ g w with
  | (Yielded v, w') =>
      match pull k g w' with
      | (Return vs, w'') => (Return (v :: vs), w'')
      | (Raise e, w'') => (Raise e, w'')
      end
  | (Stopped, w') => (Return [], w')
  | (Raised e, w') => (Raise e, w')
  end.
Proof. simpl. by destruct (next_ g w) as [[v| |e] w']. Qed.

(** [k] pulls on a live normal view outside a peek deliver the first [k]
    buffered and fresh values. *)
Lemma pull_iterate k g w :
  gens w !! g = Some (IterateGen, Suspended) ->
  _peeking w = None ->
  k <= length (unpeeked w ++ iterable w) ->
  pull k g w = (Return (take k (unpeeked w ++ iterable w)), advance k w).
Proof.
  revert w. induction k as [|k IH]; intros w Hg Hp Hk.
  - destruct w; unfold_state. by rewrite !drop_0.
  - destruct (unpeeked w ++ iterable w) as [|x rest] eqn:Hb; [simpl in Hk; lia|].
    rewrite pull_S, (next_iterate_cons _ _ _ _ Hg Hp Hb).
    assert (Hb' : unpeeked (advance 1 w) ++ iterable (advance 1 w) = rest).
    { rewrite advance_buffer, Hb. simpl. by rewrite drop_0. }
    rewrite IH, Hb', advance_advance; [done | done | done |].
    rewrite Hb'. simpl in Hk. lia.
Qed.

(** More pulls than there are values: the view delivers them all, ends and
    is finished. *)
Lemma pull_iterate_all k g w :
  gens w !! g = Some (IterateGen, Suspended) ->
  _peeking w = None ->
  length (unpeeked w ++ iterable w) < k ->
  pull k g w = (Return (unpeeked w ++ iterable w),
                finish g (set_unpeeked [] (set_iterable [] w))).
Proof.
  revert w. induction k as [|k IH]; intros w Hg Hp Hk; [lia|].
  destruct (unpeeked w ++ iterable w) as [|x rest] eqn:Hb.
  - apply app_eq_nil in Hb as [Hu Hi].
    rewrite pull_S, (next_iterate_nil _ _ Hg Hp Hu Hi).
    destruct w; unfold_state. by subst.
  - rewrite pull_S, (next_iterate_cons _ _ _ _ Hg Hp Hb).
    assert (Hb' : unpeeked (advance 1 w) ++ iterable (advance 1 w) = rest).
    { rewrite advance_buffer, Hb. simpl. by rewrite drop_0. }
    rewrite IH, Hb'; [| done | done | rewrite Hb'; simpl in Hk; lia].
    destruct w; by unfold_state.
Qed.

(** [k] pulls on the live view of a peek deliver the first [k] buffered and
    fresh values and record them in [peeked]. *)
Lemma pull_peek k g w :
  gens w !! g = Some (PeekGen, Suspended) ->
  k <= length (unpeeked w ++ iterable w) ->
  pull k g w = (Return (take k (unpeeked w ++ iterable w)),
                set_peeked (peeked w ++ take k (unpeeked w ++ iterable w))
                  (advance k w)).
Proof.
  revert w. induction k as [|k IH]; intros w Hg Hk.
  - destruct w; unfold_state. by rewrite !drop_0, app_nil_r.
  - destruct (unpeeked w ++ iterable w) as [|x rest] eqn:Hb; [simpl in Hk; lia|].
    rewrite pull_S, (next_peek_cons _ _ _ _ Hg Hb).
    assert (Hb' : unpeeked (set_peeked (peeked w ++ [x]) (advance 1 w))
                  ++ iterable (set_peeked (peeked w ++ [x]) (advance 1 w)) = rest).
    { change (unpeeked (advance 1 w) ++ iterable (advance 1 w) = rest).
      rewrite advance_buffer, Hb. simpl. by rewrite drop_0. }
    rewrite IH; [| done | rewrite Hb'; simpl in Hk; lia].
    rewrite Hb'. simpl. f_equal. destruct w; unfold_state.
    rewrite !drop_drop, length_drop, <- app_assoc. simpl.
    f_equal. f_equal. lia.
Qed.

(** More pulls than there are values: the peek view delivers them all,
    records them, ends and is finished. *)
Lemma pull_peek_all k g w :
  gens w !! g = Some (PeekGen, Suspended) ->
  length (unpeeked w ++ iterable w) < k ->
  pull k g w = (Return (unpeeked w ++ iterable w),
                finish g (set_peeked (peeked w ++ unpeeked w ++ iterable w)
                            (set_unpeeked [] (set_iterable [] w)))).
Proof.
  revert w. induction k as [|k IH]; intros w Hg Hk; [lia|].
  destruct (unpeeked w ++ iterable w) as [|x rest] eqn:Hb.
  - apply app_eq_nil in Hb as [Hu Hi].
    rewrite pull_S, (next_peek_nil _ _ Hg Hu Hi).
    destruct w; unfold_state. subst. by rewrite app_nil_r.
  - rewrite pull_S, (next_peek_cons _ _ _ _ Hg Hb).
    assert (Hb' : unpeeked (set_peeked (peeked w ++ [x]) (advance 1 w))
                  ++ iterable (set_peeked (peeked w ++ [x]) (advance 1 w)) = rest).
    { change (unpeeked (advance 1 w) ++ iterable (advance 1 w) = rest).
      rewrite advance_buffer, Hb. simpl. by rewrite drop_0. }
    rewrite IH; [| done | rewrite Hb'; simpl in Hk; lia].
    rewrite Hb'. clear Hb' IH.
    destruct w; unfold_state. rewrite Hg. by rewrite <- app_assoc.
Qed.

(** ** The methods on a state *)

Lemma lookup_new (gs : list (gen_kind * gen_state)) (x : gen_kind * gen_state) :
  (gs ++ [x]) !! length gs = Some x.
Proof. by apply list_lookup_middle. Qed.

Lemma insert_new (gs : list (gen_kind * gen_state)) (x y : gen_kind * gen_state) :
  <[length gs := y]> (gs ++ [x]) = gs ++ [y].
Proof. rewrite insert_app_r_alt by lia. by rewrite Nat.sub_diag. Qed.

(** [list(w)] outside a peek gives the buffered values and then the fresh
    ones, and leaves a finished view behind. *)
Lemma to_list_idle w :
  _peeking w = None ->
  to_list w = (Return (unpeeked w ++ iterable w),
               set_gens (gens w ++ [(IterateGen, Finished)])
                 (set_unpeeked [] (set_iterable [] w))).
Proof.
  intros Hp. unfold to_list, __iter__, new_gen, mbind, M_bind, bind, get.
  rewrite pull_iterate_all; simpl.
  - f_equal. destruct w; unfold_state. by rewrite lookup_new, insert_new.
  - apply lookup_new.
  - done.
  - rewrite length_app. lia.
Qed.

(** [list(w)] during a peek: the first pull raises. *)
Lemma to_list_peeking w g :
  _peeking w = Some g ->
  to_list w =
  (Raise (LookaheadError "Cannot iterate after a peek(). Call rewind() first"),
   set_gens (gens w ++ [(IterateGen, Finished)]) w).
Proof.
  intros Hp. unfold to_list, __iter__, new_gen, mbind, M_bind, bind, get.
  rewrite pull_S. unfold next_. simpl. rewrite lookup_new.
  unfold stop_iteration_handler, body, _iterate_body, mbind, M_bind, bind, get.
  simpl. rewrite Hp. simpl. f_equal.
  destruct w; unfold_state. by rewrite lookup_new, insert_new.
Qed.

(** [peek()] outside a peek. *)
Lemma peek_idle w :
  _peeking w = None ->
  peek w = (Return (length (gens w)),
            set_peeking (Some (length (gens w)))
              (set_gens (gens w ++ [(PeekGen, Suspended)]) w)).
Proof.
  intros Hp. unfold peek, new_gen, mbind, M_bind, bind, get, modify.
  by rewrite Hp.
Qed.

(** [peek()] during a peek. *)
Lemma peek_active w g :
  _peeking w = Some g ->
  peek w = (Raise (LookaheadError "peek() called multiple times without rewind()"), w).
Proof.
  intros Hp. unfold peek, mbind, M_bind, bind, get. by rewrite Hp.
Qed.

(** [rewind(n)] during a peek. *)
Lemma rewind_active n w g :
  _peeking w = Some g ->
  rewind n w = (Return tt,
                set_peeking None
                  (finish g (set_peeked [] (set_unpeeked (restored n w) w)))).
Proof.
  intros Hp. unfold rewind, restored, close, mbind, M_bind, bind, get, modify.
  rewrite Hp. simpl.
  destruct (n <? 0)%Z eqn:Hn, (0 <? n)%Z eqn:Hn'; try done. lia.
Qed.

(** [rewind(n)] outside a peek. *)
Lemma rewind_idle n w :
  _peeking w = None ->
  rewind n w = (Raise (LookaheadError "rewind() called without peek()"), w).
Proof.
  intros Hp. unfold rewind, mbind, M_bind, bind, get. by rewrite Hp.
Qed.

(** [l[-n:]] for [0 < n]: the last [n] items, all of them when [n] exceeds
    the length. *)
Lemma slice_from_last {A} (n : Z) (l : list A) :
  (0 < n)%Z -> slice_from (- n) l = drop (length l - Z.to_nat n) l.
Proof.
  intros Hn. unfold slice_from.
  destruct (- n <? 0)%Z eqn:E; [|lia]. f_equal. lia.
Qed.

(** The session [peek_rewind_list] on a fresh wrapper. *)
Lemma peek_rewind_list_fresh items k n :
  k <= length items ->
  (peek_rewind_list k n (__init__ items)).1 =
  Return (take k items,
          (if (n <? 0)%Z then take k items
           else if (0 <? n)%Z then slice_from (- n) (take k items)
           else []) ++ drop k items).
Proof.
  intros Hk. unfold peek_rewind_list, mbind, M_bind, bind.
  rewrite peek_idle by done. simpl.
  rewrite pull_peek; simpl; [| done | lia].
  erewrite rewind_active by reflexivity.
  rewrite to_list_idle by done. simpl.
  unfold restored; simpl. by rewrite Nat.sub_0_r, drop_nil.
Qed.

(** The session [peek_rewind_list] on a fresh wrapper when the peek asks
    for more values than there are: the peek view meets the end of the
    source and ends; a rewind with a negative argument brings everything
    back. *)
Lemma peek_rewind_list_to_end items k n :
  length items < k -> (n < 0)%Z ->
  (peek_rewind_list k n (__init__ items)).1 = Return (items, items).
Proof.
  intros Hk Hn. unfold peek_rewind_list, mbind, M_bind, bind.
  rewrite peek_idle by done. simpl.
  rewrite pull_peek_all; simpl; [| done | lia].
  erewrite rewind_active by reflexivity.
  rewrite to_list_idle by done. simpl.
  unfold restored; simpl. destruct (n <? 0)%Z eqn:E; [|lia].
  by rewrite app_nil_r.
Qed.

(** ** Plain iteration *)

(** C5: iterating a freshly wrapped sequence, with no peek and no rewind,
    yields exactly its elements in order, each once, and then the view
    stops: every further pull on it only signals the end.  Pull by pull,
    the first [k] pulls on the view deliver the first [k] elements. *)
Theorem C5_plain_iteration items :
  to_list (__init__ items) = (Return items, drained)
  /\ (forall j, pull j 0 (@drained T) = (Return [], drained))
  /\ (forall k, k <= length items ->
        (pull k 0 (__iter__ (__init__ items)).2).1 = Return (take k items)).
Proof.
  split; [|split].
  - by rewrite to_list_idle.
  - intros [|j]; [done|]. by rewrite pull_S.
  - intros k Hk. by rewrite pull_iterate.
Qed.

(** ** Peek, rewind, iterate *)

(** C3: on a freshly wrapped sequence, pulling [k] values (no more than the
    sequence has) through a peek view, then [rewind()] with its default
    argument [-1], or any negative one, then iterating to the end, yields
    the whole sequence in order; the peek saw its first [k] values. *)
Theorem C3_rewind_all_round_trip items k n :
  k <= length items -> (n < 0)%Z ->
  (peek_rewind_list k n (__init__ items)).1 = Return (take k items, items).
Proof.
  intros Hk Hn. rewrite peek_rewind_list_fresh by done.
  destruct (n <? 0)%Z eqn:E; [|lia]. by rewrite take_drop.
Qed.

(** C4: on a freshly wrapped sequence, pulling [k] values through a peek
    view, then [rewind(n)] with [0 <= n <= k], then iterating to the end,
    yields the last [n] of the [k] peeked values followed by the rest of the
    sequence; the first [k - n] peeked values are gone.  With [n = 0] all
    [k] peeked values are gone. *)
Theorem C4_rewind_partial items k n :
  k <= length items -> (0 <= n <= Z.of_nat k)%Z ->
  (peek_rewind_list k n (__init__ items)).1 =
    Return (take k items,
            drop (k - Z.to_nat n) (take k items) ++ drop k items)
  /\ (peek_rewind_list k 0 (__init__ items)).1 =
    Return (take k items, drop k items).
Proof.
  intros Hk Hn. rewrite !peek_rewind_list_fresh by done. split; [|done].
  destruct (n <? 0)%Z eqn:E; [lia|].
  destruct (0 <? n)%Z eqn:E'.
  - rewrite slice_from_last by lia. rewrite length_take.
    by replace (k `min` length items) with k by lia.
  - assert (n = 0%Z) as -> by lia. simpl. rewrite Nat.sub_0_r.
    rewrite (drop_ge (take k items)); [done | rewrite length_take; lia].
Qed.

(** C10: a [rewind(n)] whose [n] exceeds the number of values pulled in the
    running peek is no error: it does exactly what a rewind with a negative
    argument does and restores all the values of this peek. *)
Theorem C10_rewind_overshoot w g n :
  _peeking w = Some g ->
  (Z.of_nat (length (peeked w)) < n)%Z ->
  rewind n w = rewind (-1) w
  /\ (rewind n w).1 = Return tt
  /\ unpeeked (rewind n w).2 = peeked w.
Proof.
  intros Hp Hn. rewrite !(rewind_active _ _ _ Hp). unfold restored.
  destruct (n <? 0)%Z eqn:E; [lia|]. destruct (0 <? n)%Z eqn:E'; [|lia].
  rewrite slice_from_last by lia.
  replace (length (peeked w) - Z.to_nat n) with 0 by lia. rewrite drop_0.
  simpl. repeat split. destruct w; unfold_state. by destruct (gens0 !! g) as [[]|].
Qed.

(** ** Protocol violations *)

(** C6, as the code has it: a pull on a normal iteration view that is still
    live raises [LookaheadError] exactly when a peek is active, while a view
    that has finished (by exhaustion or by an earlier error) only signals
    the end, peek or no peek; [peek()] raises exactly when a peek is active;
    [rewind(n)] raises exactly when none is. *)
Theorem C6_raises_iff_live w g n :
  (gens w !! g = Some (IterateGen, Suspended) ->
     (signals_lookahead (next_ g w).1 <-> is_Some (_peeking w)))
  /\ (forall kd, gens w !! g = Some (kd, Finished) -> next_ g w = (Stopped, w))
  /\ (raises_lookahead (peek w).1 <-> is_Some (_peeking w))
  /\ (raises_lookahead (rewind n w).1 <-> _peeking w = None).
Proof.
  repeat split.
  - intros [msg Hs]. destruct (_peeking w) eqn:Hp; [by eexists|].
    destruct (unpeeked w ++ iterable w) as [|x rest] eqn:Hb.
    + apply app_eq_nil in Hb as [Hu Hi].
      by rewrite (next_iterate_nil _ _ H Hp Hu Hi) in Hs.
    + by rewrite (next_iterate_cons _ _ _ _ H Hp Hb) in Hs.
  - intros [p Hp]. unfold next_. rewrite H.
    unfold stop_iteration_handler, body, _iterate_body, mbind, M_bind, bind, get.
    rewrite Hp. by eexists.
  - intros kd. apply next_finished.
  - intros [msg Hs]. destruct (_peeking w) eqn:Hp; [by eexists|].
    by rewrite (peek_idle _ Hp) in Hs.
  - intros [p Hp]. rewrite (peek_active _ _ Hp). by eexists.
  - intros [msg Hs]. destruct (_peeking w) eqn:Hp; [|done].
    by rewrite (rewind_active _ _ _ Hp) in Hs.
  - intros Hp. rewrite (rewind_idle _ _ Hp). by eexists.
Qed.

(** C7: a [peek()] or [rewind(n)] that raises leaves the wrapper as it was;
    and during a peek with view [g] a second [peek()] does raise, after
    which pulls on [g] and [rewind] behave as they would have before it. *)
Theorem C7_atomic_on_error w g n e :
  ((peek w).1 = Raise e -> (peek w).2 = w)
  /\ ((rewind n w).1 = Raise e -> (rewind n w).2 = w)
  /\ (_peeking w = Some g ->
      raises_lookahead (peek w).1
      /\ next_ g (peek w).2 = next_ g w
      /\ rewind n (peek w).2 = rewind n w
      /\ (rewind n (peek w).2).1 = Return tt).
Proof.
  repeat split.
  - destruct (_peeking w) eqn:Hp.
    + by rewrite (peek_active _ _ Hp).
    + by rewrite (peek_idle _ Hp).
  - destruct (_peeking w) eqn:Hp.
    + by rewrite (rewind_active _ _ _ Hp).
    + by rewrite (rewind_idle _ _ Hp).
  - rewrite (peek_active _ _ H). by eexists.
  - by rewrite (peek_active _ _ H).
  - by rewrite (peek_active _ _ H).
  - rewrite (peek_active _ _ H). simpl. by rewrite (rewind_active _ _ _ H).
Qed.

(** ** Wrapping *)

(** C9: [with_lookahead] hands a [LookaheadIterable] back as it is, the same
    object in an unchanged heap, so with its peek state and buffers; for any
    other iterable it allocates a fresh wrapper of it and touches no object
    that exists; wrapping the result again changes nothing. *)
Theorem C9_idempotent_wrap (x : pyobj T) (h : heap T) :
  (forall a, with_lookahead (LookaheadRef a) h = (LookaheadRef a, h))
  /\ (forall items,
        (with_lookahead (OtherIterable items) h).1 = LookaheadRef (length h)
        /\ (with_lookahead (OtherIterable items) h).2 !! length h
           = Some (__init__ items)
        /\ h !! length h = None
        /\ forall a o, h !! a = Some o ->
             (with_lookahead (OtherIterable items) h).2 !! a = Some o)
  /\ with_lookahead (with_lookahead x h).1 (with_lookahead x h).2
     = with_lookahead x h.
Proof.
  repeat split.
  - simpl. by apply list_lookup_middle.
  - apply lookup_ge_None. lia.
  - intros a o Ha. simpl. by apply lookup_app_l_Some.
  - by destruct x.
Qed.

(** ** Exhaustion *)

(** Every outcome of a pull. *)
Lemma next_cases g w :
  next_ g w = (Stopped, w)
  \/ (is_Some (_peeking w) /\ gens w !! g = Some (IterateGen, Suspended)
      /\ exists msg, next_ g w = (Raised (LookaheadError msg), finish g w))
  \/ (unpeeked w = [] /\ iterable w = [] /\ next_ g w = (Stopped, finish g w))
  \/ (exists x rest, unpeeked w ++ iterable w = x :: rest /\ _peeking w = None
      /\ gens w !! g = Some (IterateGen, Suspended)
      /\ next_ g w = (Yielded x, advance 1 w))
  \/ (exists x rest, unpeeked w ++ iterable w = x :: rest
      /\ gens w !! g = Some (PeekGen, Suspended)
      /\ next_ g w = (Yielded x, set_peeked (peeked w ++ [x]) (advance 1 w))).
Proof.
  destruct (gens w !! g) as [[[] []]|] eqn:Hg;
    try (left; unfold next_; by rewrite Hg).
  - destruct (_peeking w) as [p|] eqn:Hp.
    + right; left. repeat split; [by eexists|]. unfold next_. rewrite Hg.
      unfold stop_iteration_handler, body, _iterate_body, mbind, M_bind, bind, get.
      rewrite Hp. by eexists.
    + destruct (unpeeked w ++ iterable w) as [|x rest] eqn:Hb.
      * apply app_eq_nil in Hb as [Hu Hi]. right; right; left.
        by rewrite (next_iterate_nil _ _ Hg Hp Hu Hi).
      * right; right; right; left. exists x, rest.
        by rewrite (next_iterate_cons _ _ _ _ Hg Hp Hb).
  - destruct (unpeeked w ++ iterable w) as [|x rest] eqn:Hb.
    + apply app_eq_nil in Hb as [Hu Hi]. right; right; left.
      by rewrite (next_peek_nil _ _ Hg Hu Hi).
    + right; right; right; right. exists x, rest.
      by rewrite (next_peek_cons _ _ _ _ Hg Hb).
Qed.

Lemma next_silent g w e :
  (next_ g w).1 = Raised e -> exists msg, e = LookaheadError msg.
Proof.
  destruct (next_cases g w)
    as [H|[(_&_&msg&H)|[(_&_&H)|[(x&rest&_&_&_&H)|(x&rest&_&_&H)]]]];
    rewrite H; simpl; try done.
  intros [= <-]. by eexists.
Qed.

Lemma finish_fields g w :
  iterable (finish g w) = iterable w /\ unpeeked (finish g w) = unpeeked w
  /\ peeked (finish g w) = peeked w /\ _peeking (finish g w) = _peeking w.
Proof. unfold finish. by destruct (gens w !! g) as [[]|]. Qed.

Lemma step_silent c w : silent (step c w).1.
Proof.
  destruct c as [| |n|g]; simpl.
  - done.
  - destruct (_peeking w) eqn:Hp.
    + rewrite (peek_active _ _ Hp). by eexists.
    + by rewrite (peek_idle _ Hp).
  - destruct (_peeking w) eqn:Hp.
    + by rewrite (rewind_active _ _ _ Hp).
    + rewrite (rewind_idle _ _ Hp). by eexists.
  - destruct (next_ g w) as [[v| |e] w'] eqn:Hn; simpl; try done.
    apply (next_silent g w). by rewrite Hn.
Qed.

(** Once the source is used up it stays so, whatever is called. *)
Lemma step_exhausted c w : iterable w = [] -> iterable (step c w).2 = [].
Proof.
  intros Hi. destruct c as [| |n|g]; simpl.
  - done.
  - destruct (_peeking w) eqn:Hp.
    + by rewrite (peek_active _ _ Hp).
    + by rewrite (peek_idle _ Hp).
  - destruct (_peeking w) eqn:Hp.
    + rewrite (rewind_active _ _ _ Hp). simpl.
      by rewrite (proj1 (finish_fields _ _)).
    + by rewrite (rewind_idle _ _ Hp).
  - destruct (next_cases g w)
      as [H|[(_&_&msg&H)|[(_&_&H)|[(x&rest&_&_&_&H)|(x&rest&_&_&H)]]]];
      rewrite H; simpl; rewrite ?(proj1 (finish_fields _ _)); try done.
    + destruct w; unfold_state. subst. by rewrite drop_nil.
    + destruct w; unfold_state. subst. by rewrite drop_nil.
Qed.

(** With the source used up and nothing buffered or peeked, no call
    delivers a value or brings a value back. *)
Lemma step_empty c w :
  iterable w = [] -> unpeeked w = [] -> peeked w = [] ->
  no_value (step c w).1
  /\ unpeeked (step c w).2 = [] /\ peeked (step c w).2 = [].
Proof.
  intros Hi Hu Hk. destruct c as [| |n|g]; simpl.
  - done.
  - destruct (_peeking w) eqn:Hp.
    + by rewrite (peek_active _ _ Hp).
    + by rewrite (peek_idle _ Hp).
  - destruct (_peeking w) as [p|] eqn:Hp.
    + rewrite (rewind_active _ _ _ Hp). simpl.
      destruct (finish_fields p (set_peeked [] (set_unpeeked (restored n w) w)))
        as (_ & -> & -> & _). simpl. repeat split.
      unfold restored, slice_from. rewrite Hk, Hu, drop_nil.
      by destruct (n <? 0)%Z, (0 <? n)%Z.
    + by rewrite (rewind_idle _ _ Hp).
  - destruct (next_cases g w)
      as [H|[(_&_&msg&H)|[(_&_&H)|[(x&rest&Hb&_&_&H)|(x&rest&Hb&_&H)]]]];
      rewrite H; simpl; try done.
    + by destruct (finish_fields g w) as (_ & -> & -> & _).
    + by destruct (finish_fields g w) as (_ & -> & -> & _).
    + by rewrite Hi, Hu in Hb.
    + by rewrite Hi, Hu in Hb.
Qed.

Lemma run_cons c cs w :
  run (c :: cs) w =
  ((step c w).1 :: (run cs (step c w).2).1, (run cs (step c w).2).2).
Proof.
  simpl. destruct (step c w) as [o w']. simpl. by destruct (run cs w').
Qed.

Lemma run_exhausted cs w :
  iterable w = [] ->
  iterable (run cs w).2 = [] /\ Forall silent (run cs w).1.
Proof.
  revert w. induction cs as [|c cs IH]; intros w Hi; [by split|].
  rewrite run_cons. simpl.
  destruct (IH (step c w).2 (step_exhausted c w Hi)) as [IH1 IH2].
  split; [done|]. constructor; [apply step_silent | done].
Qed.

Lemma run_empty cs w :
  iterable w = [] -> unpeeked w = [] -> peeked w = [] ->
  Forall no_value (run cs w).1.
Proof.
  revert w. induction cs as [|c cs IH]; intros w Hi Hu Hk; [by constructor|].
  rewrite run_cons. simpl.
  destruct (step_empty c w Hi Hu Hk) as (Hv & Hu' & Hk').
  constructor; [done|]. apply IH; [by apply step_exhausted | done | done].
Qed.

(** ** Order of delivery *)

Lemma finish_lookup g g' w st :
  gens (finish g w) !! g' = Some (PeekGen, st) ->
  st = Suspended ->
  gens w !! g' = Some (PeekGen, Suspended) /\ g' <> g.
Proof.
  unfold finish. destruct (gens w !! g) as [[kd st']|] eqn:Hg; simpl.
  - destruct (decide (g = g')) as [<-|Hne].
    + rewrite list_lookup_insert_eq by (by eapply lookup_lt_Some).
      by intros [= <- <-].
    + rewrite list_lookup_insert_ne by done. by intros -> ->.
  - intros Hg' ->. split; [done|]. intros ->. congruence.
Qed.

Lemma finish_consistent g w : consistent w -> consistent (finish g w).
Proof.
  intros [H1 H2]. destruct (finish_fields g w) as (_ & _ & Hk & Hp). split.
  - rewrite Hk, Hp. done.
  - intros g' Hg'. rewrite Hp. apply H2. by eapply finish_lookup.
Qed.

Lemma finish_pending g w : pending (finish g w) = pending w.
Proof.
  unfold pending. by destruct (finish_fields g w) as (-> & -> & -> & _).
Qed.

Lemma restored_sublist n w :
  restored n w ++ iterable w `sublist_of` pending w.
Proof.
  unfold restored, pending, slice_from.
  destruct (n <? 0)%Z; [|destruct (0 <? n)%Z].
  - apply sublist_app; [done|]. by apply sublist_inserts_l.
  - apply sublist_app; [apply sublist_drop|]. by apply sublist_inserts_l.
  - by apply sublist_inserts_l.
Qed.

Lemma step_order c w :
  consistent w ->
  consistent (step c w).2
  /\ delivered [(step c w).1] ++ pending (step c w).2 `sublist_of` pending w.
Proof.
  intros Hw. pose proof Hw as [H1 H2]. destruct c as [| |n|g]; simpl.
  - split; [|done]. split; [done|]. simpl. intros g Hg.
    apply lookup_snoc_Some in Hg as [[_ Hg]|[_ ?]]; [by apply H2 | done].
  - destruct (_peeking w) as [p|] eqn:Hp.
    + rewrite (peek_active _ _ Hp). simpl. by split.
    + rewrite (peek_idle _ Hp). simpl. split; [|done]. split; [done|]. simpl.
      intros g Hg.
      apply lookup_snoc_Some in Hg as [[_ Hg]|[-> _]]; [|done].
      apply H2 in Hg. congruence.
  - destruct (_peeking w) as [p|] eqn:Hp.
    + rewrite (rewind_active _ _ _ Hp). simpl. split.
      * split; simpl.
        -- intros _. by destruct (finish_fields p
             (set_peeked [] (set_unpeeked (restored n w) w))) as (_ & _ & -> & _).
        -- intros g Hg. apply finish_lookup in Hg as [Hg Hne]; [|done].
           simpl in Hg. apply H2 in Hg. congruence.
      * unfold pending at 1. simpl.
        destruct (finish_fields p (set_peeked [] (set_unpeeked (restored n w) w)))
          as (-> & -> & -> & _). simpl. apply restored_sublist.
    + rewrite (rewind_idle _ _ Hp). simpl. by split.
  - destruct (next_cases g w)
      as [H|[(_&Hg&msg&H)|[(_&_&H)|[(x&rest&Hb&Hp&Hg&H)|(x&rest&Hb&Hg&H)]]]];
      rewrite H; simpl.
    + split; [done|]. by destruct (fst <$> gens w !! g) as [[]|].
    + split; [by apply finish_consistent|]. rewrite finish_pending.
      by destruct (fst <$> gens w !! g) as [[]|].
    + split; [by apply finish_consistent|]. rewrite finish_pending.
      by destruct (fst <$> gens w !! g) as [[]|].
    + rewrite Hg. simpl. split.
      * split; [by destruct w | by destruct w].
      * assert (Hk := H1 Hp).
        assert (E : pending (advance 1 w) = rest).
        { unfold pending. change (peeked (advance 1 w)) with (peeked w).
          rewrite Hk, app_nil_l, advance_buffer, Hb. simpl. by rewrite drop_0. }
        rewrite E. unfold pending. by rewrite Hk, Hb.
    + rewrite Hg. simpl. split.
      * split; simpl; [|by destruct w].
        intros Hp. apply H2 in Hg. destruct w; unfold_state. congruence.
      * assert (E : pending (set_peeked (peeked w ++ [x]) (advance 1 w))
                    = pending w).
        { unfold pending at 1.
          change (peeked (set_peeked (peeked w ++ [x]) (advance 1 w)))
            with (peeked w ++ [x]).
          change (unpeeked (set_peeked (peeked w ++ [x]) (advance 1 w)))
            with (unpeeked (advance 1 w)).
          change (iterable (set_peeked (peeked w ++ [x]) (advance 1 w)))
            with (iterable (advance 1 w)).
          rewrite advance_buffer, Hb. simpl. rewrite drop_0.
          unfold pending. by rewrite Hb, <- app_assoc. }
        by rewrite E.
Qed.

Lemma delivered_cons (o : observation T) os :
  delivered (o :: os) = delivered [o] ++ delivered os.
Proof. unfold delivered. simpl. by rewrite app_nil_r. Qed.

Lemma run_order cs w :
  consistent w ->
  delivered (run cs w).1 ++ pending (run cs w).2 `sublist_of` pending w.
Proof.
  revert w. induction cs as [|c cs IH]; intros w Hw; [done|].
  rewrite run_cons. cbn [fst snd]. rewrite delivered_cons, <- app_assoc.
  destruct (step_order c w Hw) as [Hw' Hs].
  etrans; [|exact Hs]. apply sublist_app; [done|]. by apply IH.
Qed.

(** Whatever is called, the values that normal iteration delivers are
    values of the source in the order of the source, none of them twice. *)
Theorem delivered_in_order cs items :
  delivered (run cs (__init__ items)).1 `sublist_of` items.
Proof.
  etrans; [|apply (run_order cs (__init__ items))].
  - by apply sublist_inserts_r.
  - split; [done|]. intros g Hg. done.
Qed.

End Properties.

(** * The properties on concrete sessions *)

(** C1, the code on a legal session: the source is [[1; 2; 3]], the first
    peek sees all three values and rewinds them all, the second peek sees
    the value [1] and rewinds it; the iteration that follows delivers [1]
    and ends.  The values [2] and [3], restored by the first rewind, are
    delivered to no normal view. *)
Theorem C1_values_lost :
  (run short_second_peek (__init__ [1; 2; 3])).1 =
    [ObsGen 0;
     ObsNext 0 (Some PeekGen) (Yielded 1);
     ObsNext 0 (Some PeekGen) (Yielded 2);
     ObsNext 0 (Some PeekGen) (Yielded 3);
     ObsNone;
     ObsGen 1;
     ObsNext 1 (Some PeekGen) (Yielded 1);
     ObsNone;
     ObsGen 2;
     ObsNext 2 (Some IterateGen) (Yielded 1);
     ObsNext 2 (Some IterateGen) Stopped]
  /\ delivered (run short_second_peek (__init__ [1; 2; 3])).1 = [1].
Proof. split; reflexivity. Qed.

(** C2, the code at a reachable state: at the second [rewind] of the
    session the peek is active and [unpeeked] still holds [2] and [3]; the
    rewind replaces it by the one peeked value, and an iteration gives
    [[1]] only. *)
Theorem C2_buffer_not_empty_at_rewind :
  reachable at_second_rewind
  /\ _peeking at_second_rewind = Some 1
  /\ peeked at_second_rewind = [1]
  /\ unpeeked at_second_rewind = [2; 3]
  /\ unpeeked (rewind (-1) at_second_rewind).2 = [1]
  /\ (rewind_list (-1) at_second_rewind).1 = Return [1].
Proof.
  split; [|repeat split; reflexivity].
  by exists [1; 2; 3], (take 7 short_second_peek).
Qed.

(** C6 as stated fails: a normal view pulled during a peek raises
    [LookaheadError] once and is finished by it; the peek is still active,
    and the next pull on that view signals the plain end of the sequence,
    no error. *)
Lemma C6_counterexample :
  (run pull_during_peek (__init__ [1; 2])).1 =
    [ObsGen 0; ObsGen 1;
     ObsNext 0 (Some IterateGen)
       (Raised (LookaheadError "Cannot iterate after a peek(). Call rewind() first"))]
  /\ _peeking after_pull_during_peek = Some 1
  /\ gens after_pull_during_peek !! 0 = Some (IterateGen, Finished)
  /\ next_ 0 after_pull_during_peek = (Stopped, after_pull_during_peek)
  /\ ~ (signals_lookahead (next_ 0 after_pull_during_peek).1
        <-> is_Some (_peeking after_pull_during_peek)).
Proof.
  repeat split. intros [_ H]. destruct H as [msg Hmsg]; [by eexists|]. done.
Qed.

(** C5 pull by pull on [[1; 2; 3]]: two pulls deliver [[1; 2]]. *)
Lemma C5_witness :
  2 <= length [1; 2; 3]
  /\ (pull 2 0 (__iter__ (__init__ [1; 2; 3])).2).1 = Return [1; 2]
  /\ to_list (__init__ [1; 2; 3]) = (Return [1; 2; 3], drained).
Proof.
  assert (H1 : 2 <= length [1; 2; 3]) by (simpl; lia).
  destruct (C5_plain_iteration [1; 2; 3]) as (Ha & _ & Hb).
  exact (conj H1 (conj (Hb 2 H1) Ha)).
Defined.

(** The round trip of C3 on [[1; 2; 3]] with two values peeked. *)
Lemma C3_witness :
  2 <= length [1; 2; 3] /\ (-1 < 0)%Z
  /\ (peek_rewind_list 2 (-1) (__init__ [1; 2; 3])).1
     = Return ([1; 2], [1; 2; 3]).
Proof.
  assert (H1 : 2 <= length [1; 2; 3]) by (simpl; lia).
  assert (H2 : (-1 < 0)%Z) by lia.
  exact (conj H1 (conj H2 (C3_rewind_all_round_trip [1; 2; 3] 2 (-1) H1 H2))).
Defined.

(** The partial restore of C4 on [[1; 2; 3; 4]]: three values peeked, two
    restored. *)
Lemma C4_witness :
  3 <= length [1; 2; 3; 4] /\ (0 <= 2 <= Z.of_nat 3)%Z
  /\ (peek_rewind_list 3 2 (__init__ [1; 2; 3; 4])).1
     = Return ([1; 2; 3], [2; 3; 4])
  /\ (peek_rewind_list 3 0 (__init__ [1; 2; 3; 4])).1
     = Return ([1; 2; 3], [4]).
Proof.
  assert (H1 : 3 <= length [1; 2; 3; 4]) by (simpl; lia).
  assert (H2 : (0 <= 2 <= Z.of_nat 3)%Z) by lia.
  exact (conj H1 (conj H2 (C4_rewind_partial [1; 2; 3; 4] 3 2 H1 H2))).
Defined.

(** The overshoot of C10: two values peeked, [rewind(5)]. *)
Lemma C10_witness :
  _peeking peeked_two = Some 0
  /\ (Z.of_nat (length (peeked peeked_two)) < 5)%Z
  /\ rewind 5 peeked_two = rewind (-1) peeked_two
  /\ (rewind 5 peeked_two).1 = Return tt
  /\ unpeeked (rewind 5 peeked_two).2 = [1; 2].
Proof.
  assert (H1 : _peeking peeked_two = Some 0) by reflexivity.
  assert (H2 : (Z.of_nat (length (peeked peeked_two)) < 5)%Z) by reflexivity.
  exact (conj H1 (conj H2 (C10_rewind_overshoot peeked_two 0 5 H1 H2))).
Defined.

(** C6 on a live normal view during a peek. *)
Lemma C6_witness :
  gens view_and_peek !! 0 = Some (IterateGen, Suspended)
  /\ (signals_lookahead (next_ 0 view_and_peek).1
      <-> is_Some (_peeking view_and_peek))
  /\ (raises_lookahead (peek view_and_peek).1
      <-> is_Some (_peeking view_and_peek)).
Proof.
  assert (H1 : gens view_and_peek !! 0 = Some (IterateGen, Suspended))
    by reflexivity.
  destruct (C6_raises_iff_live view_and_peek 0 (-1)) as (Ha & _ & Hb & _).
  exact (conj H1 (conj (Ha H1) Hb)).
Defined.

(** C7 on a second [peek()] during a peek. *)
Lemma C7_witness :
  (peek view_and_peek).1
    = Raise (LookaheadError "peek() called multiple times without rewind()")
  /\ _peeking view_and_peek = Some 1
  /\ (peek view_and_peek).2 = view_and_peek
  /\ next_ 1 (peek view_and_peek).2 = next_ 1 view_and_peek
  /\ (rewind (-1) (peek view_and_peek).2).1 = Return tt.
Proof.
  assert (H1 : (peek view_and_peek).1
    = Raise (LookaheadError "peek() called multiple times without rewind()"))
    by reflexivity.
  assert (H2 : _peeking view_and_peek = Some 1) by reflexivity.
  destruct (C7_atomic_on_error view_and_peek 1 (-1)
              (LookaheadError "peek() called multiple times without rewind()"))
    as (Ha & _ & Hb).
  destruct (Hb H2) as (_ & Hc & _ & Hd).
  exact (conj H1 (conj H2 (conj (Ha H1) (conj Hc Hd)))).
Defined.

(** C9 on a heap with one wrapper: a list is wrapped into a new object and
    the object that was there is kept. *)
Lemma C9_witness :
  [__init__ [7]] !! 0 = Some (__init__ [7])
  /\ (with_lookahead (OtherIterable [1; 2]) [__init__ [7]]).2 !! 0
     = Some (__init__ [7])
  /\ with_lookahead (LookaheadRef 1)
       [__init__ [7]; __init__ [1; 2]]
     = (LookaheadRef 1, [__init__ [7]; __init__ [1; 2]]).
Proof.
  assert (H1 : [__init__ [7]] !! 0 = Some (__init__ [7])) by reflexivity.
  destruct (C9_idempotent_wrap (OtherIterable [1; 2]) [__init__ [7]])
    as (_ & Ha & Hb).
  destruct (Ha [1; 2]) as (_ & _ & _ & Hc).
  exact (conj H1 (conj (Hc 0 (__init__ [7]) H1) Hb)).
Defined.

(** * Further properties of the wrapper *)

Section Further.

Context {T : Type}.

Implicit Types (w : LookaheadIterable T) (g k : nat) (n : Z) (items : list T).

#[local] Ltac unfold_wrapper :=
  unfold advance, finish, set_iterable, set_peeking, set_peeked, set_unpeeked,
    set_gens in *; simpl in *.

(** ** The store of generators *)

Lemma finish_lookup_same g w kd st :
  gens w !! g = Some (kd, st) -> gens (finish g w) !! g = Some (kd, Finished).
Proof.
  intros Hg. unfold finish. rewrite Hg. simpl.
  apply list_lookup_insert_eq. by eapply lookup_lt_Some.
Qed.

Lemma finish_lookup_finished p g w kd :
  gens w !! g = Some (kd, Finished) ->
  gens (finish p w) !! g = Some (kd, Finished).
Proof.
  intros Hg. unfold finish. destruct (gens w !! p) as [[kd' st']|] eqn:Hp; [|done].
  simpl. destruct (decide (p = g)) as [->|Hne].
  - rewrite list_lookup_insert_eq by (by eapply lookup_lt_Some). congruence.
  - by rewrite list_lookup_insert_ne.
Qed.

Lemma finish_peeking g w : _peeking (finish g w) = _peeking w.
Proof. by destruct (finish_fields g w) as (_ & _ & _ & ->). Qed.

Lemma finish_iterable g w : iterable (finish g w) = iterable w.
Proof. by destruct (finish_fields g w) as (-> & _). Qed.

Lemma finish_unpeeked g w : unpeeked (finish g w) = unpeeked w.
Proof. by destruct (finish_fields g w) as (_ & -> & _). Qed.

Lemma finish_peeked g w : peeked (finish g w) = peeked w.
Proof. by destruct (finish_fields g w) as (_ & _ & -> & _). Qed.

(** ** States reached by calls *)

Lemma run_consistent cs w : consistent w -> consistent (run cs w).2.
Proof.
  revert w. induction cs as [|c cs IH]; intros w Hw; [done|].
  rewrite run_cons. cbn [snd]. apply IH. by apply step_order.
Qed.

Lemma reachable_consistent w : reachable w -> consistent w.
Proof.
  intros (items & cs & <-). apply run_consistent. by split.
Qed.

(** In every state reached by calls on a fresh wrapper: outside a peek
    [peeked] is empty, so a rewind can only restore values of its own peek;
    and a peek view other than the one of the running peek, kept from an
    earlier peek, is closed: a pull on it delivers nothing and changes
    nothing. *)
Theorem stale_peek_view_closed w g st :
  reachable w ->
  (_peeking w = None -> peeked w = [])
  /\ (gens w !! g = Some (PeekGen, st) -> _peeking w <> Some g ->
      next_ g w = (Stopped, w)).
Proof.
  intros Hr. destruct (reachable_consistent w Hr) as [H1 H2]. split; [done|].
  intros Hg Hne. destruct st.
  - by apply H2 in Hg.
  - by apply (next_finished g PeekGen).
Qed.

(** ** What a view delivers *)

Lemma pull_iterate_values k g w :
  gens w !! g = Some (IterateGen, Suspended) ->
  _peeking w = None ->
  (pull k g w).1 = Return (take k (unpeeked w ++ iterable w)).
Proof.
  intros Hg Hp. destruct (decide (k <= length (unpeeked w ++ iterable w))).
  - by rewrite pull_iterate.
  - rewrite pull_iterate_all by (done || lia). simpl.
    by rewrite take_ge by lia.
Qed.

Lemma pull_peek_values k g w :
  gens w !! g = Some (PeekGen, Suspended) ->
  (pull k g w).1 = Return (take k (unpeeked w ++ iterable w)).
Proof.
  intros Hg. destruct (decide (k <= length (unpeeked w ++ iterable w))).
  - by rewrite pull_peek.
  - rewrite pull_peek_all by (done || lia). simpl.
    by rewrite take_ge by lia.
Qed.

(** A peek looks at exactly what iteration would deliver next: outside a
    peek, [k] pulls on a new peek view and [k] pulls on a new normal view
    give the same values, the first [k] of the buffered values followed by
    the fresh ones, or all of them when there are fewer than [k]. *)
Theorem peek_sees_what_iteration_delivers k w :
  _peeking w = None ->
  (peek_pull k w).1 = Return (take k (unpeeked w ++ iterable w))
  /\ (iter_pull k w).1 = Return (take k (unpeeked w ++ iterable w)).
Proof.
  intros Hp. split.
  - unfold peek_pull, mbind, Sessions_bind, bind. rewrite peek_idle by done.
    rewrite pull_peek_values; [done|]. simpl. apply lookup_new.
  - unfold iter_pull, __iter__, new_gen, mbind, Sessions_bind, bind.
    rewrite pull_iterate_values; [done| |done]. simpl. apply lookup_new.
Qed.

(** Two normal views of one wrapper share its position: after [j] pulls on
    one view, [k] pulls on the other continue where the first stopped; no
    value is delivered to both. *)
Theorem views_share_position j a k b w :
  gens w !! a = Some (IterateGen, Suspended) ->
  gens w !! b = Some (IterateGen, Suspended) ->
  _peeking w = None ->
  j <= length (unpeeked w ++ iterable w) ->
  (pull_two j a k b w).1 =
  Return (take j (unpeeked w ++ iterable w),
          take k (drop j (unpeeked w ++ iterable w))).
Proof.
  intros Ha Hb Hp Hj. unfold pull_two, mbind, Sessions_bind, bind.
  rewrite pull_iterate by done.
  assert (Hv : (pull k b (advance j w)).1
               = Return (take k (drop j (unpeeked w ++ iterable w)))).
  { rewrite <- advance_buffer. by apply pull_iterate_values. }
  destruct (pull k b (advance j w)) as [r w']. simpl in Hv. by subst r.
Qed.

(** ** A peek session from any state outside a peek *)

Lemma drop_take_drop {A} (i k : nat) (l : list A) :
  i <= k -> k <= length l -> drop i (take k l) ++ drop k l = drop i l.
Proof.
  intros Hi Hk. rewrite <- (take_drop k l) at 3.
  rewrite drop_app_le; [done|]. rewrite length_take. lia.
Qed.

(** The session [peek_rewind_list] on a wrapper outside a peek. *)
Lemma peek_rewind_list_idle k n w :
  _peeking w = None -> peeked w = [] ->
  k <= length (unpeeked w ++ iterable w) ->
  (peek_rewind_list k n w).1 =
  Return (take k (unpeeked w ++ iterable w),
          (if (n <? 0)%Z then take k (unpeeked w ++ iterable w)
           else if (0 <? n)%Z
                then slice_from (- n) (take k (unpeeked w ++ iterable w))
                else drop k (unpeeked w))
          ++ drop (k - length (unpeeked w)) (iterable w)).
Proof.
  intros Hp Hk Hl. unfold peek_rewind_list, mbind, M_bind, bind.
  rewrite peek_idle by done. simpl.
  rewrite pull_peek; simpl; [| apply lookup_new | done].
  erewrite rewind_active by reflexivity.
  rewrite to_list_idle by done. simpl.
  unfold restored; simpl.
  match goal with
  | |- context [finish ?g ?x] => destruct (finish_fields g x) as (-> & -> & _)
  end.
  simpl. by rewrite Hk.
Qed.

(** [rewind(0)] drops the peeked values and nothing else: from any reachable
    state outside a peek, peeking [k] values and rewinding with [0] leaves
    for iteration everything after the first [k] values, whether it was
    buffered or still in the source. *)
Theorem rewind_zero_keeps_buffer k w :
  reachable w -> _peeking w = None ->
  k <= length (unpeeked w ++ iterable w) ->
  (peek_rewind_list k 0 w).1 =
  Return (take k (unpeeked w ++ iterable w),
          drop k (unpeeked w ++ iterable w)).
Proof.
  intros Hr Hp Hk. destruct (reachable_consistent w Hr) as [H1 _].
  rewrite peek_rewind_list_idle by auto. simpl. by rewrite drop_app.
Qed.

(** The round trip from any reachable state outside a peek: when the peek
    pulls at least as many values as were buffered, a rewind with a
    negative argument followed by iteration gives everything the wrapper
    held, in order. *)
Theorem rewind_all_round_trip_drained k n w :
  reachable w -> _peeking w = None -> (n < 0)%Z ->
  length (unpeeked w) <= k ->
  k <= length (unpeeked w ++ iterable w) ->
  (peek_rewind_list k n w).1 =
  Return (take k (unpeeked w ++ iterable w), unpeeked w ++ iterable w).
Proof.
  intros Hr Hp Hn Hu Hk. destruct (reachable_consistent w Hr) as [H1 _].
  rewrite peek_rewind_list_idle by auto.
  destruct (n <? 0)%Z eqn:E; [|lia].
  assert (E2 : drop (k - length (unpeeked w)) (iterable w)
               = drop k (unpeeked w ++ iterable w)).
  { by rewrite drop_app, (drop_ge (unpeeked w)). }
  by rewrite E2, take_drop.
Qed.

(** The partial restore from any reachable state outside a peek: when the
    peek pulls at least as many values as were buffered, [rewind(n)] with
    [0 < n] leaves for iteration the last [n] peeked values and what
    follows them, and everything when [n] exceeds the number peeked. *)
Theorem rewind_partial_drained k n w :
  reachable w -> _peeking w = None -> (0 < n)%Z ->
  length (unpeeked w) <= k ->
  k <= length (unpeeked w ++ iterable w) ->
  (peek_rewind_list k n w).1 =
  Return (take k (unpeeked w ++ iterable w),
          drop (k - Z.to_nat n) (unpeeked w ++ iterable w)).
Proof.
  intros Hr Hp Hn Hu Hk. destruct (reachable_consistent w Hr) as [H1 _].
  rewrite peek_rewind_list_idle by auto.
  destruct (n <? 0)%Z eqn:E; [lia|]. destruct (0 <? n)%Z eqn:E'; [|lia].
  rewrite slice_from_last by done. rewrite length_take.
  replace (k `min` length (unpeeked w ++ iterable w)) with k by lia.
  assert (E2 : drop (k - length (unpeeked w)) (iterable w)
               = drop k (unpeeked w ++ iterable w)).
  { by rewrite drop_app, (drop_ge (unpeeked w)). }
  rewrite E2. by rewrite drop_take_drop by lia.
Qed.

(** What a short peek costs: when values are buffered and the peek pulls
    fewer of them than there are, a rewind with a negative argument puts
    back the pulled ones only; the buffered values that were not pulled are
    delivered to nobody, and iteration goes on with the source. *)
Theorem rewind_discards_unpulled_buffer k n w :
  reachable w -> _peeking w = None -> (n < 0)%Z ->
  k < length (unpeeked w) ->
  (peek_rewind_list k n w).1 =
  Return (take k (unpeeked w), take k (unpeeked w) ++ iterable w).
Proof.
  intros Hr Hp Hn Hk. destruct (reachable_consistent w Hr) as [H1 _].
  rewrite peek_rewind_list_idle; [|done|auto|rewrite length_app; lia].
  destruct (n <? 0)%Z eqn:E; [|lia].
  rewrite take_app_le by lia.
  replace (k - length (unpeeked w)) with 0 by lia. by rewrite drop_0.
Qed.

(** ** Protocol errors and exhaustion during a peek *)

(** A pull on a live normal view during a peek. *)
Lemma next_iterate_peeking g p w :
  gens w !! g = Some (IterateGen, Suspended) ->
  _peeking w = Some p ->
  next_ g w =
  (Raised (LookaheadError "Cannot iterate after a peek(). Call rewind() first"),
   finish g w).
Proof.
  intros Hg Hp. unfold next_. rewrite Hg.
  unfold stop_iteration_handler, body, _iterate_body, mbind, M_bind, bind, get.
  by rewrite Hp.
Qed.

(** A pull on a normal view during a peek raises and takes nothing: source
    and buffers are as before and the peek goes on.  But the view is
    finished by the error: after the [rewind] a pull on it only signals the
    end, while a new iteration delivers what the rewind restored and the
    rest of the source. *)
Theorem failed_pull_takes_nothing_but_ends_view g p n w :
  gens w !! g = Some (IterateGen, Suspended) ->
  _peeking w = Some p ->
  signals_lookahead (next_ g w).1
  /\ iterable (next_ g w).2 = iterable w
  /\ unpeeked (next_ g w).2 = unpeeked w
  /\ peeked (next_ g w).2 = peeked w
  /\ _peeking (next_ g w).2 = Some p
  /\ (rewind n (next_ g w).2).1 = Return tt
  /\ next_ g (rewind n (next_ g w).2).2
     = (Stopped, (rewind n (next_ g w).2).2)
  /\ (to_list (rewind n (next_ g w).2).2).1
     = Return (restored n w ++ iterable w).
Proof.
  intros Hg Hp. rewrite (next_iterate_peeking _ _ _ Hg Hp). simpl.
  destruct (finish_fields g w) as (Hi & Hu & Hk & Hp').
  assert (Hp2 : _peeking (finish g w) = Some p) by congruence.
  rewrite (rewind_active _ _ _ Hp2). simpl.
  split; [by eexists|]. do 5 (split; [done|]). split.
  - apply (next_finished g IterateGen). simpl.
    apply finish_lookup_finished. simpl. by eapply finish_lookup_same.
  - rewrite to_list_idle by done. simpl.
    match goal with
    | |- context [finish p ?x] => destruct (finish_fields p x) as (-> & -> & _)
    end.
    simpl. unfold restored. by rewrite Hi, Hu, Hk.
Qed.

(** Running out of values does not end a peek: when the peek view meets the
    end of the source it ends, but the peek stays open; [peek()] and normal
    iteration still raise, and [rewind] with a negative argument followed by
    iteration still gives back what the peek had pulled. *)
Theorem exhausted_peek_stays_open g n w :
  _peeking w = Some g ->
  gens w !! g = Some (PeekGen, Suspended) ->
  unpeeked w = [] -> iterable w = [] -> (n < 0)%Z ->
  (next_ g w).1 = Stopped
  /\ _peeking (next_ g w).2 = Some g
  /\ raises_lookahead (peek (next_ g w).2).1
  /\ raises_lookahead (to_list (next_ g w).2).1
  /\ (rewind_list n (next_ g w).2).1 = Return (peeked w).
Proof.
  intros Hp Hg Hu Hi Hn. rewrite (next_peek_nil _ _ Hg Hu Hi). simpl.
  destruct (finish_fields g w) as (Hi' & Hu' & Hk' & Hp').
  assert (Hp2 : _peeking (finish g w) = Some g) by congruence.
  split; [done|]. split; [done|]. split; [|split].
  - rewrite (peek_active _ _ Hp2). by eexists.
  - rewrite (to_list_peeking _ _ Hp2). by eexists.
  - unfold rewind_list, mbind, M_bind, bind.
    rewrite (rewind_active _ _ _ Hp2). rewrite to_list_idle by done. simpl.
    match goal with
    | |- context [finish g ?x] => destruct (finish_fields g x) as (-> & -> & _)
    end.
    simpl. unfold restored. destruct (n <? 0)%Z eqn:E; [|lia].
    by rewrite Hk', Hi', Hi, app_nil_r.
Qed.

(** ** [take_while] on a peek *)

(** [take_while] on a live peek view when some value fails the test. *)
Lemma take_while_peek_stop pred a x b : forall fuel g w,
  gens w !! g = Some (PeekGen, Suspended) ->
  unpeeked w ++ iterable w = a ++ x :: b ->
  Forall (fun v => pred v = true) a -> pred x = false ->
  length a < fuel ->
  take_while_pull fuel pred g w =
  (Return a, set_peeked (peeked w ++ a ++ [x]) (advance (S (length a)) w)).
Proof.
  induction a as [|y a IH]; intros fuel g w Hg Hb Ha Hx Hf;
    (destruct fuel as [|fuel]; [simpl in Hf; lia|]); simpl.
  - rewrite (next_peek_cons _ _ _ _ Hg Hb). by rewrite Hx.
  - rewrite (next_peek_cons _ _ _ _ Hg Hb).
    apply Forall_cons in Ha as [Hy Ha]. rewrite Hy.
    unfold mbind, Sessions_bind, bind.
    rewrite (IH fuel g); [| done | | done | done | simpl in Hf; lia].
    + simpl. f_equal. destruct w; unfold_wrapper.
      rewrite !drop_drop, length_drop, <- app_assoc. simpl.
      f_equal. f_equal. lia.
    + change (unpeeked (advance 1 w) ++ iterable (advance 1 w) = a ++ x :: b).
      rewrite advance_buffer, Hb. simpl. by rewrite drop_0.
Qed.

(** [take_while] on a live peek view when every value passes the test. *)
Lemma take_while_peek_all pred : forall fuel g w,
  gens w !! g = Some (PeekGen, Suspended) ->
  Forall (fun v => pred v = true) (unpeeked w ++ iterable w) ->
  length (unpeeked w ++ iterable w) < fuel ->
  take_while_pull fuel pred g w =
  (Return (unpeeked w ++ iterable w),
   finish g (set_peeked (peeked w ++ unpeeked w ++ iterable w)
               (set_unpeeked [] (set_iterable [] w)))).
Proof.
  induction fuel as [|fuel IH]; intros g w Hg Ha Hf; [lia|]. simpl.
  destruct (unpeeked w ++ iterable w) as [|y rest] eqn:Hb.
  - apply app_eq_nil in Hb as [Hu Hi].
    rewrite (next_peek_nil _ _ Hg Hu Hi).
    destruct w; unfold_wrapper. subst. by rewrite app_nil_r.
  - rewrite (next_peek_cons _ _ _ _ Hg Hb).
    apply Forall_cons in Ha as [Hy Ha]. rewrite Hy.
    unfold mbind, Sessions_bind, bind.
    assert (Hb' : unpeeked (set_peeked (peeked w ++ [y]) (advance 1 w))
                  ++ iterable (set_peeked (peeked w ++ [y]) (advance 1 w)) = rest).
    { change (unpeeked (advance 1 w) ++ iterable (advance 1 w) = rest).
      rewrite advance_buffer, Hb. simpl. by rewrite drop_0. }
    rewrite (IH g); [| done | by rewrite Hb' | rewrite Hb'; simpl in Hf; lia].
    rewrite Hb'. clear Hb' IH.
    destruct w; unfold_wrapper. rewrite Hg. by rewrite <- app_assoc.
Qed.

(** The use shown in the docstring of [with_lookahead]: outside a peek,
    [take_while] over a peek view collects the values before the first one
    that fails the test and swallows that one; [rewind(1)] puts exactly
    that one back, so iteration resumes with it.  (The buffer must not hold
    more values than the peek pulled.) *)
Theorem take_while_then_rewind_one pred a x b w :
  reachable w -> _peeking w = None ->
  unpeeked w ++ iterable w = a ++ x :: b ->
  Forall (fun v => pred v = true) a -> pred x = false ->
  length (unpeeked w) <= S (length a) ->
  (peek_while_rewind_list pred 1 w).1 = Return (a, x :: b).
Proof.
  intros Hr Hp Hb Ha Hx Hu. destruct (reachable_consistent w Hr) as [H1 _].
  unfold peek_while_rewind_list, mbind, Sessions_bind, bind, get.
  rewrite peek_idle by done. cbv beta iota.
  rewrite (take_while_peek_stop pred a x b);
    [| apply lookup_new | done | done | done
     | simpl; rewrite <- length_app, Hb, length_app; simpl; lia].
  erewrite rewind_active by reflexivity. cbv beta iota.
  rewrite to_list_idle by done. simpl.
  match goal with
  | |- context [finish ?g ?y] => destruct (finish_fields g y) as (-> & -> & _)
  end.
  simpl. unfold restored. simpl. rewrite (H1 Hp). simpl.
  rewrite slice_from_last by lia. rewrite length_app. simpl.
  replace (length a + 1 - Z.to_nat 1) with (length a) by lia.
  rewrite drop_app_length. simpl.
  assert (E : drop (S (length a)) (unpeeked w ++ iterable w) = b).
  { rewrite Hb. by rewrite (drop_app_length a (x :: b)) || 
      (replace (S (length a)) with (length a + 1) by lia;
       rewrite <- drop_drop, drop_app_length). }
  rewrite drop_app, (drop_ge (unpeeked w)) in E by lia. simpl in E.
  by rewrite E.
Qed.

(** The edge of that use: when every value left passes the test,
    [take_while] collects them all and nothing was swallowed, yet
    [rewind(1)] still puts the last pulled value back: iteration delivers
    the last value once more. *)
Theorem take_while_all_then_rewind_one pred w :
  reachable w -> _peeking w = None ->
  Forall (fun v => pred v = true) (unpeeked w ++ iterable w) ->
  (peek_while_rewind_list pred 1 w).1 =
  Return (unpeeked w ++ iterable w,
          drop (length (unpeeked w ++ iterable w) - 1)
            (unpeeked w ++ iterable w)).
Proof.
  intros Hr Hp Ha. destruct (reachable_consistent w Hr) as [H1 _].
  unfold peek_while_rewind_list, mbind, Sessions_bind, bind, get.
  rewrite peek_idle by done. cbv beta iota.
  rewrite take_while_peek_all;
    [| apply lookup_new | done | simpl; rewrite length_app; lia].
  erewrite rewind_active by (rewrite finish_peeking; reflexivity).
  cbv beta iota. rewrite to_list_idle by done. simpl.
  rewrite !finish_iterable, !finish_unpeeked. simpl.
  unfold restored. simpl. rewrite finish_peeked. simpl. rewrite (H1 Hp). simpl.
  rewrite slice_from_last by lia. rewrite ?finish_iterable. simpl.
  by rewrite app_nil_r.
Qed.

(** ** Exhaustion, for pulls that keep to the protocol *)

(** A finished generator stays finished, whatever is called. *)
Lemma step_finished c g kd w :
  gens w !! g = Some (kd, Finished) ->
  gens (step c w).2 !! g = Some (kd, Finished).
Proof.
  intros Hg. destruct c as [| |n|g']; simpl.
  - by apply lookup_app_l_Some.
  - destruct (_peeking w) as [p|] eqn:Hp.
    + by rewrite (peek_active _ _ Hp).
    + rewrite (peek_idle _ Hp). simpl. by apply lookup_app_l_Some.
  - destruct (_peeking w) as [p|] eqn:Hp.
    + rewrite (rewind_active _ _ _ Hp). simpl. by apply finish_lookup_finished.
    + by rewrite (rewind_idle _ _ Hp).
  - destruct (next_cases g' w)
      as [H|[(_&_&msg&H)|[(_&_&H)|[(x&rest&_&_&_&H)|(x&rest&_&_&H)]]]];
      rewrite H; simpl; try done; by apply finish_lookup_finished.
Qed.

Lemma run_finished cs g kd w :
  gens w !! g = Some (kd, Finished) ->
  gens (run cs w).2 !! g = Some (kd, Finished).
Proof.
  revert w. induction cs as [|c cs IH]; intros w Hg; [done|].
  rewrite run_cons. cbn [snd]. apply IH. by apply step_finished.
Qed.

(** C8, as the code has it: with the source used up,
    (1) no pull on any view lets an exception through other than the
    protocol error, in particular not the source's [StopIteration] nor the
    [RuntimeError] it would become;
    (2) but a pull on a live normal view during a peek does raise the
    protocol error, exhausted source or not;
    (3) with nothing buffered, a pull on a peek view, or on a normal view
    outside a peek, signals the plain end of the sequence;
    (4) with a value buffered, such a pull on a live view delivers it;
    (5) whatever calls follow, the source stays used up and no other
    exception ever comes out;
    (6) if moreover nothing is buffered or peeked, no later pull delivers a
    value;
    (7) a view that has ended stays ended whatever is called, also when a
    rewind has put values back;
    (8) yet a new iteration after [rewind(n)] delivers what that rewind
    restores, for every [n];
    (9) so on a fresh wrapper, a peek that pulls past the end of the source,
    rewound with a negative argument, is followed by an iteration of the
    whole sequence. *)
Theorem C8_exhaustion_silent_within_protocol w cs :
  iterable w = [] ->
  (forall g e, (next_ g w).1 = Raised e -> exists msg, e = LookaheadError msg)
  /\ (forall g p, gens w !! g = Some (IterateGen, Suspended) ->
        _peeking w = Some p -> signals_lookahead (next_ g w).1)
  /\ (unpeeked w = [] -> forall g,
        fst <$> gens w !! g = Some PeekGen \/ _peeking w = None ->
        (next_ g w).1 = Stopped)
  /\ (forall g kd x rest, gens w !! g = Some (kd, Suspended) ->
        kd = PeekGen \/ _peeking w = None ->
        unpeeked w = x :: rest ->
        (next_ g w).1 = Yielded x)
  /\ (iterable (run cs w).2 = [] /\ Forall silent (run cs w).1)
  /\ (unpeeked w = [] -> peeked w = [] -> Forall no_value (run cs w).1)
  /\ (forall g kd, gens w !! g = Some (kd, Finished) ->
        gens (run cs w).2 !! g = Some (kd, Finished)
        /\ next_ g (run cs w).2 = (Stopped, (run cs w).2))
  /\ (forall g n, _peeking w = Some g ->
        (rewind_list n w).1 = Return (restored n w))
  /\ (forall items k n, length items < k -> (n < 0)%Z ->
        (peek_rewind_list k n (__init__ items)).1 = Return (items, items)).
Proof.
  intros Hi. repeat apply conj.
  - intros g e. apply next_silent.
  - intros g p Hg Hp. rewrite (next_iterate_peeking _ _ _ Hg Hp). by eexists.
  - intros Hu g Hg.
    destruct (next_cases g w)
      as [H|[([p Hp]&Hk&msg&H)|[(_&_&H)|[(x&rest&Hb&_&_&H)|(x&rest&Hb&_&H)]]]];
      rewrite H; simpl; try done.
    + destruct Hg as [Hg|Hg]; [by rewrite Hk in Hg | congruence].
    + by rewrite Hi, Hu in Hb.
    + by rewrite Hi, Hu in Hb.
  - intros g kd x rest Hg Hl Hu.
    assert (Hb : unpeeked w ++ iterable w = x :: rest ++ iterable w)
      by (by rewrite Hu).
    destruct kd.
    + destruct Hl as [Hl|Hl]; [done|].
      by rewrite (next_iterate_cons _ _ _ _ Hg Hl Hb).
    + by rewrite (next_peek_cons _ _ _ _ Hg Hb).
  - by apply run_exhausted.
  - by apply run_exhausted.
  - by apply run_empty.
  - intros g kd Hg. split; [by apply run_finished|].
    apply (next_finished g kd). by apply run_finished.
  - intros g n Hp. unfold rewind_list, mbind, M_bind, bind.
    rewrite (rewind_active _ _ _ Hp). rewrite to_list_idle by done. simpl.
    rewrite finish_unpeeked, finish_iterable. simpl. by rewrite Hi, app_nil_r.
  - apply peek_rewind_list_to_end.
Qed.

End Further.

(** * Properties of [debug_eager] *)

Section DebugProperties.

Context {T : Type} (maxsize : Z).

Implicit Types (s : debug_state T) (k : nat) (items : list T).

Lemma islice_stop_ok (stop : Z) :
  (0 <= stop <= maxsize)%Z -> islice_stop_error maxsize stop = None.
Proof.
  intros H. unfold islice_stop_error.
  destruct (maxsize <? stop)%Z eqn:E1; [lia|].
  destruct (stop <? - maxsize - 1)%Z eqn:E2; [lia|].
  destruct (stop =? -1)%Z eqn:E3; [lia|]. simpl.
  by destruct (stop <? -1)%Z eqn:E4; [lia|].
Qed.

Lemma islice_stop_refused (stop : Z) :
  (stop < 0 \/ maxsize < stop)%Z ->
  exists msg, islice_stop_error maxsize stop = Some msg.
Proof.
  intros H. unfold islice_stop_error.
  destruct (_ || _ || _) eqn:E; [by eexists|].
  apply orb_false_elim in E as [E E3]. apply orb_false_elim in E as [E1 E2].
  destruct (stop <? -1)%Z eqn:E4; [by eexists|]. lia.
Qed.

Lemma debug_pull_S k s :
  debug_pull maxsize (S k) s =
  match debug_next maxsize s with
  | (DebugYielded v, s') =>
      match debug_pull maxsize k s' with
      | (DebugValues vs, s'') => (DebugValues (v :: vs), s'')
      | (DebugFailed e, s'') => (DebugFailed e, s'')
      end
  | (DebugStopped, s') => (DebugValues [], s')
  | (DebugRaised e, s') => (DebugFailed e, s')
  end.
Proof. done. Qed.

(** Pulls inside [yield from iterable]. *)
Lemma debug_pull_iterable k : forall s,
  debug_phase_of s = DebugIterable ->
  (debug_pull maxsize k s).1 = DebugValues (take k (debug_iterable s))
  /\ debug_stdout (debug_pull maxsize k s).2 = debug_stdout s
  /\ debug_iterable (debug_pull maxsize k s).2 = drop k (debug_iterable s).
Proof.
  induction k as [|k IH]; intros [l m src out ph] Hph; simpl in Hph; subst ph.
  - done.
  - rewrite debug_pull_S. unfold debug_next, yield_from_iterable. simpl.
    destruct src as [|x src]; [done|].
    destruct (IH (set_debug src out DebugIterable (MkDebug l m (x :: src) out DebugIterable)))
      as (Hv & Ho & Hi); [done|].
    destruct (debug_pull maxsize k _) as [[vs|e] s'] eqn:E; simpl in *; [|done].
    by injection Hv as ->.
Qed.

(** Pulls inside [yield from items]. *)
Lemma debug_pull_items r : forall k s,
  debug_phase_of s = DebugItems r ->
  (debug_pull maxsize k s).1 = DebugValues (take k (r ++ debug_iterable s))
  /\ debug_stdout (debug_pull maxsize k s).2 = debug_stdout s
  /\ debug_iterable (debug_pull maxsize k s).2
     = drop (k - length r) (debug_iterable s).
Proof.
  induction r as [|y r IH]; intros [|k] [l m src out ph] Hph;
    simpl in Hph; subst ph; try done.
  - rewrite debug_pull_S. unfold debug_next, yield_from_items, yield_from_iterable.
    simpl. destruct src as [|x src]; [done|].
    destruct (debug_pull_iterable k
                (set_debug src out DebugIterable (MkDebug l m (x :: src) out (DebugItems []))))
      as (Hv & Ho & Hi); [done|].
    destruct (debug_pull maxsize k _) as [[vs|e] s'] eqn:E; simpl in *; [|done].
    by injection Hv as ->.
  - rewrite debug_pull_S. unfold debug_next, yield_from_items. simpl.
    destruct (IH k (set_debug src out (DebugItems r) (MkDebug l m src out (DebugItems (y :: r)))))
      as (Hv & Ho & Hi); [done|].
    destruct (debug_pull maxsize k _) as [[vs|e] s'] eqn:E; simpl in *; [|done].
    by injection Hv as ->.
Qed.

(** The first pull runs the body up to its first [yield]: from there on the
    generator behaves as one that stands at the start of [yield from items]
    with the items fetched and printed. *)
Lemma debug_pull_first k items label max_count :
  (0 <= max_count <= maxsize)%Z ->
  debug_pull maxsize (S k) (debug_eager items label max_count) =
  debug_pull maxsize (S k)
    (set_debug (drop (Z.to_nat max_count) items)
       (debug_output label (take (Z.to_nat max_count) items))
       (DebugItems (take (Z.to_nat max_count) items))
       (debug_eager items label max_count)).
Proof.
  intros Hm. rewrite !debug_pull_S. unfold debug_next. simpl.
  by rewrite islice_stop_ok.
Qed.

(** [debug_eager] passes everything on: for any label and any [max_count]
    from [0] to [sys.maxsize], [k] pulls on the generator deliver the first
    [k] items of the iterable, in order, and all of them when [k] exceeds
    their number, whether [max_count] is below or above that number. *)
Theorem debug_eager_transparent items label max_count k :
  (0 <= max_count <= maxsize)%Z ->
  (debug_pull maxsize k (debug_eager items label max_count)).1
  = DebugValues (take k items).
Proof.
  intros Hm. destruct k as [|k]; [done|].
  rewrite debug_pull_first by done.
  destruct (debug_pull_items (take (Z.to_nat max_count) items) (S k)
              (set_debug (drop (Z.to_nat max_count) items)
                 (debug_output label (take (Z.to_nat max_count) items))
                 (DebugItems (take (Z.to_nat max_count) items))
                 (debug_eager items label max_count)))
    as (Hv & _); [done|].
  rewrite Hv. simpl debug_iterable. by rewrite take_drop.
Qed.

(** [debug_eager] prints at its first pull and never again: for
    [max_count] from [0] to [sys.maxsize], nothing is printed before the
    first pull, and after any number of pulls the output is the label, if
    one was given, followed by the first [max_count] items of the iterable,
    all of them when there are fewer; no more than [max_count] items are
    ever printed. *)
Theorem debug_eager_prints_once items label max_count k :
  (0 <= max_count <= maxsize)%Z ->
  debug_stdout (debug_eager items label max_count) = []
  /\ debug_stdout (debug_pull maxsize (S k) (debug_eager items label max_count)).2
     = debug_output label (take (Z.to_nat max_count) items)
  /\ length (debug_stdout
               (debug_pull maxsize (S k) (debug_eager items label max_count)).2)
     <= 1 + Z.to_nat max_count.
Proof.
  intros Hm. split; [done|].
  rewrite debug_pull_first by done.
  destruct (debug_pull_items (take (Z.to_nat max_count) items) (S k)
              (set_debug (drop (Z.to_nat max_count) items)
                 (debug_output label (take (Z.to_nat max_count) items))
                 (DebugItems (take (Z.to_nat max_count) items))
                 (debug_eager items label max_count)))
    as (_ & Ho & _); [done|].
  rewrite Ho. simpl debug_stdout. split; [done|].
  unfold debug_output. rewrite length_app, length_map, length_take.
  destruct label; simpl; lia.
Qed.

(** [debug_eager] is eager: for [max_count] from [0] to [sys.maxsize],
    its first pull delivers one value but takes [max_count] items off the
    iterable; after [k >= 1] pulls the iterable has lost its first
    [max_count] items, or its first [k] when [k] is larger. *)
Theorem debug_eager_fetches_ahead items label max_count k :
  (0 <= max_count <= maxsize)%Z ->
  debug_iterable (debug_eager items label max_count) = items
  /\ debug_iterable (debug_pull maxsize (S k) (debug_eager items label max_count)).2
     = drop (S k `max` Z.to_nat max_count) items.
Proof.
  intros Hm. split; [done|].
  rewrite debug_pull_first by done.
  destruct (debug_pull_items (take (Z.to_nat max_count) items) (S k)
              (set_debug (drop (Z.to_nat max_count) items)
                 (debug_output label (take (Z.to_nat max_count) items))
                 (DebugItems (take (Z.to_nat max_count) items))
                 (debug_eager items label max_count)))
    as (_ & _ & Hi); [done|].
  rewrite Hi. simpl debug_iterable. rewrite drop_drop, length_take.
  destruct (decide (Z.to_nat max_count <= length items)).
  - f_equal. lia.
  - rewrite !drop_ge; [done | lia | lia].
Qed.

(** A negative [max_count] makes the first pull fail with the [ValueError]
    of [islice]: nothing is printed, not even the label, nothing is taken
    off the iterable, and the generator is finished, so the items are never
    passed on. *)
Theorem debug_eager_negative_max_count items label max_count k :
  (max_count < 0)%Z ->
  (exists msg, (debug_pull maxsize (S k) (debug_eager items label max_count)).1
               = DebugFailed (ValueError msg))
  /\ debug_stdout (debug_pull maxsize (S k) (debug_eager items label max_count)).2 = []
  /\ debug_iterable (debug_pull maxsize (S k) (debug_eager items label max_count)).2
     = items
  /\ (debug_pull maxsize k (debug_pull maxsize (S k) (debug_eager items label max_count)).2).1
     = DebugValues [].
Proof.
  intros Hm. rewrite debug_pull_S. unfold debug_next. simpl.
  destruct (islice_stop_refused max_count) as [msg ->]; [lia|]. simpl.
  split; [by eexists|]. do 2 (split; [done|]). by destruct k.
Qed.

(** A [max_count] above [sys.maxsize] fails in the same way: the first pull
    raises the [ValueError] of [islice], nothing is printed, nothing is
    taken off the iterable, and the generator is finished. *)
Theorem debug_eager_oversized_max_count items label max_count k :
  (maxsize < max_count)%Z ->
  (exists msg, (debug_pull maxsize (S k) (debug_eager items label max_count)).1
               = DebugFailed (ValueError msg))
  /\ debug_stdout (debug_pull maxsize (S k) (debug_eager items label max_count)).2 = []
  /\ debug_iterable (debug_pull maxsize (S k) (debug_eager items label max_count)).2
     = items
  /\ (debug_pull maxsize k (debug_pull maxsize (S k) (debug_eager items label max_count)).2).1
     = DebugValues [].
Proof.
  intros Hm. rewrite debug_pull_S. unfold debug_next. simpl.
  destruct (islice_stop_refused max_count) as [msg ->]; [lia|]. simpl.
  split; [by eexists|]. do 2 (split; [done|]). by destruct k.
Qed.


End DebugProperties.

(** * The further properties on concrete sessions *)

Lemma buffered_two_reachable : reachable buffered_two.
Proof.
  exact (ex_intro _ [1; 2; 3]
           (ex_intro _ [CallPeek; CallNext 0; CallNext 0; CallRewind (-1)]
              eq_refl)).
Defined.

(** A peek view kept after its rewind is closed. *)
Lemma stale_peek_view_closed_witness :
  reachable buffered_two
  /\ gens buffered_two !! 0 = Some (PeekGen, Finished)
  /\ _peeking buffered_two <> Some 0
  /\ next_ 0 buffered_two = (Stopped, buffered_two).
Proof.
  assert (H1 : gens buffered_two !! 0 = Some (PeekGen, Finished)) by reflexivity.
  assert (H2 : _peeking buffered_two <> Some 0) by discriminate.
  exact (conj buffered_two_reachable (conj H1 (conj H2
    (proj2 (stale_peek_view_closed buffered_two 0 Finished
              buffered_two_reachable) H1 H2)))).
Defined.

(** Three values seen by a peek, or by an iteration, with two buffered. *)
Lemma peek_sees_what_iteration_delivers_witness :
  _peeking buffered_two = None
  /\ (peek_pull 3 buffered_two).1 = Return [1; 2; 3]
  /\ (iter_pull 3 buffered_two).1 = Return [1; 2; 3].
Proof.
  assert (H1 : _peeking buffered_two = None) by reflexivity.
  exact (conj H1 (peek_sees_what_iteration_delivers 3 buffered_two H1)).
Defined.

(** Two views on [[1; 2; 3; 4]]: two pulls on the first, one on the
    second. *)
Lemma views_share_position_witness :
  (pull_two 2 0 1 1 (run [CallIter; CallIter] (__init__ [1; 2; 3; 4])).2).1
  = Return ([1; 2], [3]).
Proof.
  refine (views_share_position 2 0 1 1
            (run [CallIter; CallIter] (__init__ [1; 2; 3; 4])).2
            eq_refl eq_refl eq_refl _).
  simpl. lia.
Defined.

(** One of the two buffered values peeked, [rewind(0)]. *)
Lemma rewind_zero_keeps_buffer_witness :
  (peek_rewind_list 1 0 buffered_two).1 = Return ([1], [2; 3]).
Proof.
  refine (rewind_zero_keeps_buffer 1 buffered_two buffered_two_reachable
            eq_refl _).
  simpl. lia.
Defined.

(** Both buffered values peeked, [rewind(-1)]. *)
Lemma rewind_all_round_trip_drained_witness :
  (peek_rewind_list 2 (-1) buffered_two).1 = Return ([1; 2], [1; 2; 3]).
Proof.
  refine (rewind_all_round_trip_drained 2 (-1) buffered_two
            buffered_two_reachable eq_refl _ _ _);
    [lia | simpl; lia | simpl; lia].
Defined.

(** Three values peeked, two of them buffered before, [rewind(2)]. *)
Lemma rewind_partial_drained_witness :
  (peek_rewind_list 3 2 buffered_two).1 = Return ([1; 2; 3], [2; 3]).
Proof.
  refine (rewind_partial_drained 3 2 buffered_two
            buffered_two_reachable eq_refl _ _ _);
    [lia | simpl; lia | simpl; lia].
Defined.

(** One of the two buffered values peeked, [rewind(-1)]: [2] is gone. *)
Lemma rewind_discards_unpulled_buffer_witness :
  (peek_rewind_list 1 (-1) buffered_two).1 = Return ([1], [1; 3]).
Proof.
  refine (rewind_discards_unpulled_buffer 1 (-1) buffered_two
            buffered_two_reachable eq_refl _ _);
    [lia | simpl; lia].
Defined.

(** A normal view pulled during a peek on [[1; 2]]. *)
Lemma failed_pull_witness :
  iterable (next_ 0 view_and_peek).2 = [1; 2]
  /\ next_ 0 (rewind (-1) (next_ 0 view_and_peek).2).2
     = (Stopped, (rewind (-1) (next_ 0 view_and_peek).2).2)
  /\ (to_list (rewind (-1) (next_ 0 view_and_peek).2).2).1 = Return [1; 2].
Proof.
  destruct (failed_pull_takes_nothing_but_ends_view 0 1 (-1) view_and_peek
              eq_refl eq_refl)
    as (_ & Ha & _ & _ & _ & _ & Hb & Hc).
  exact (conj Ha (conj Hb Hc)).
Defined.

(** A peek on [[1; 2]] pulled a third time. *)
Lemma exhausted_peek_witness :
  (next_ 0 peeked_two).1 = Stopped
  /\ _peeking (next_ 0 peeked_two).2 = Some 0
  /\ (rewind_list (-1) (next_ 0 peeked_two).2).1 = Return [1; 2].
Proof.
  assert (H : (-1 < 0)%Z) by lia.
  destruct (exhausted_peek_stays_open 0 (-1) peeked_two
              eq_refl eq_refl eq_refl eq_refl H)
    as (Ha & Hb & _ & _ & Hc).
  exact (conj Ha (conj Hb Hc)).
Defined.

Lemma fresh_reachable (items : list nat) : reachable (__init__ items).
Proof. exact (ex_intro _ items (ex_intro _ [] eq_refl)). Defined.

(** [take_while] below four on [[1; 2; 5; 3]], then [rewind(1)]. *)
Lemma take_while_then_rewind_one_witness :
  (peek_while_rewind_list below_four 1 (__init__ [1; 2; 5; 3])).1
  = Return ([1; 2], [5; 3]).
Proof.
  refine (take_while_then_rewind_one below_four [1; 2] 5 [3]
            (__init__ [1; 2; 5; 3]) (fresh_reachable _)
            eq_refl eq_refl _ eq_refl _).
  - repeat constructor.
  - simpl. lia.
Defined.

(** [take_while] below four on [[1; 2; 3]], then [rewind(1)]: [3] comes
    again. *)
Lemma take_while_all_then_rewind_one_witness :
  (peek_while_rewind_list below_four 1 (__init__ [1; 2; 3])).1
  = Return ([1; 2; 3], [3]).
Proof.
  refine (take_while_all_then_rewind_one below_four (__init__ [1; 2; 3])
            (fresh_reachable _) eq_refl _).
  repeat constructor.
Defined.

(** [debug_eager] on [[10; 20; 30]] with a label and [max_count = 2]. *)
Lemma debug_eager_transparent_witness :
  (0 <= 2 <= maxsize64)%Z
  /\ (debug_pull maxsize64 5
        (debug_eager [10; 20; 30] (Some "Items:"%string) 2)).1
     = DebugValues [10; 20; 30].
Proof.
  assert (H : (0 <= 2 <= maxsize64)%Z) by (unfold maxsize64; lia).
  exact (conj H
    (debug_eager_transparent maxsize64 [10; 20; 30] (Some "Items:"%string) 2 5 H)).
Defined.

Lemma debug_eager_prints_once_witness :
  (0 <= 2 <= maxsize64)%Z
  /\ debug_stdout
       (debug_pull maxsize64 3
          (debug_eager [10; 20; 30] (Some "Items:"%string) 2)).2
     = [PrintLabel "Items:"%string; PrintItem 10; PrintItem 20].
Proof.
  assert (H : (0 <= 2 <= maxsize64)%Z) by (unfold maxsize64; lia).
  exact (conj H (proj1 (proj2
    (debug_eager_prints_once maxsize64 [10; 20; 30] (Some "Items:"%string)
       2 2 H)))).
Defined.

Lemma debug_eager_fetches_ahead_witness :
  (0 <= 2 <= maxsize64)%Z
  /\ (debug_pull maxsize64 1 (debug_eager [10; 20; 30] None 2)).1
     = DebugValues [10]
  /\ debug_iterable
       (debug_pull maxsize64 1 (debug_eager [10; 20; 30] None 2)).2 = [30].
Proof.
  assert (H : (0 <= 2 <= maxsize64)%Z) by (unfold maxsize64; lia).
  exact (conj H (conj eq_refl
    (proj2 (debug_eager_fetches_ahead maxsize64 [10; 20; 30] None 2 0 H)))).
Defined.

Lemma debug_eager_negative_max_count_witness :
  debug_stdout
    (debug_pull maxsize64 1
       (debug_eager [10; 20; 30] (Some "Items:"%string) (-1))).2
  = []
  /\ (debug_pull maxsize64 0
        (debug_pull maxsize64 1
           (debug_eager [10; 20; 30] (Some "Items:"%string) (-1))).2).1
     = DebugValues [].
Proof.
  assert (H : (-1 < 0)%Z) by lia.
  destruct (debug_eager_negative_max_count maxsize64 [10; 20; 30]
              (Some "Items:"%string) (-1) 0 H) as (_ & Ha & _ & Hb).
  exact (conj Ha Hb).
Defined.

(** [debug_eager] with [max_count = 2 ^ 63] on a 64-bit interpreter. *)
Lemma debug_eager_oversized_max_count_witness :
  (maxsize64 < 2 ^ 63)%Z
  /\ debug_stdout
       (debug_pull maxsize64 1
          (debug_eager [10; 20; 30] (Some "Items:"%string) (2 ^ 63))).2
     = []
  /\ debug_iterable
       (debug_pull maxsize64 1
          (debug_eager [10; 20; 30] (Some "Items:"%string) (2 ^ 63))).2
     = [10; 20; 30].
Proof.
  assert (H : (maxsize64 < 2 ^ 63)%Z) by (unfold maxsize64; lia).
  destruct (debug_eager_oversized_max_count maxsize64 [10; 20; 30]
              (Some "Items:"%string) (2 ^ 63) 0 H) as (_ & Ha & Hb & _).
  exact (conj H (conj Ha Hb)).
Defined.

(** C8 as stated fails: the peek on [[1; 2]] has met the end of the source
    and nothing is buffered, and a pull on the normal view, still live,
    gives the protocol error, not the end of the sequence. *)
Lemma C8_counterexample :
  (run [CallIter; CallPeek; CallNext 1; CallNext 1; CallNext 1]
     (__init__ [1; 2])).1 =
    [ObsGen 0; ObsGen 1;
     ObsNext 1 (Some PeekGen) (Yielded 1);
     ObsNext 1 (Some PeekGen) (Yielded 2);
     ObsNext 1 (Some PeekGen) Stopped]
  /\ iterable exhausted_in_peek = []
  /\ unpeeked exhausted_in_peek = []
  /\ gens exhausted_in_peek !! 0 = Some (IterateGen, Suspended)
  /\ (next_ 0 exhausted_in_peek).1
     = Raised (LookaheadError "Cannot iterate after a peek(). Call rewind() first")
  /\ (next_ 0 exhausted_in_peek).1 <> Stopped.
Proof. repeat split. discriminate. Qed.

(** C8 on that wrapper: the peek view has ended and stays ended after the
    rewind, a pull on it gives nothing although two values are buffered
    again, and a new iteration delivers them. *)
Lemma C8_witness :
  iterable exhausted_in_peek = []
  /\ gens exhausted_in_peek !! 1 = Some (PeekGen, Finished)
  /\ unpeeked (run [CallRewind (-1)] exhausted_in_peek).2 = [1; 2]
  /\ next_ 1 (run [CallRewind (-1)] exhausted_in_peek).2
     = (Stopped, (run [CallRewind (-1)] exhausted_in_peek).2)
  /\ signals_lookahead (next_ 0 exhausted_in_peek).1
  /\ (rewind_list (-1) exhausted_in_peek).1 = Return [1; 2].
Proof.
  assert (H1 : iterable exhausted_in_peek = []) by reflexivity.
  assert (H2 : gens exhausted_in_peek !! 1 = Some (PeekGen, Finished))
    by reflexivity.
  destruct (C8_exhaustion_silent_within_protocol exhausted_in_peek
              [CallRewind (-1)] H1)
    as (_ & Ha & _ & _ & _ & _ & Hb & Hc & _).
  exact (conj H1 (conj H2 (conj eq_refl (conj (proj2 (Hb 1 PeekGen H2))
    (conj (Ha 0 1 eq_refl eq_refl) (Hc 1 (-1)%Z eq_refl)))))).
Defined.
